(** * PPM reader and writer (ppm.c): shallow embedding and properties

    The development follows [ppm.c]: the stdio primitives the file relies
    on ([fprintf], [fwrite], [fscanf], [sscanf], [fread], [strcmp]) are
    modelled on streams of characters, then [write_ppm], [readline],
    [load_header], [alloc_img] and [load_ppm] are transcribed on top of
    them.  Integers of the C program are values of [Z] with the wrap-around
    of their C type written out. *)

From Stdlib Require Import ZArith List Ascii String Bool Lia.
Import ListNotations.
Local Open Scope Z_scope.

(** ** Characters and C integer types *)

Definition code (c : ascii) : Z := Z.of_N (N_of_ascii c).
Definition chr (z : Z) : ascii := ascii_of_N (Z.to_N (z mod 256)).

Definition str (s : string) : list ascii := list_ascii_of_string s.

Definition NL : ascii := "010"%char.
Definition NUL : ascii := "000"%char.

(** [isspace] and [isdigit] in the C locale. *)
Definition isspace (c : ascii) : bool :=
  (code c =? 32) || ((9 <=? code c) && (code c <=? 13)).

Definition isdigit (c : ascii) : bool :=
  (48 <=? code c) && (code c <=? 57).

Definition ULONG_MAX : Z := 18446744073709551615.

Definition to_uint (z : Z) : Z := z mod 2 ^ 32.
Definition to_ulong (z : Z) : Z := z mod 2 ^ 64.
Definition to_uint8 (z : Z) : Z := z mod 256.
(** Conversion to [int]: two's complement, as gcc defines it. *)
Definition to_int (z : Z) : Z := (z + 2 ^ 31) mod 2 ^ 32 - 2 ^ 31.

(** ** Data model *)

(** Modelled from the spec: [enum PPM_TYPE] of [ppm.h], which is not among
    the sources; "exactly two variants", named as [ppm.c] uses them. *)
Inductive PPM_TYPE := PPM_RAW | PPM_ASCII.

(** Modelled from the spec: [pixel_t] of [ppm.h], "three unsigned 8-bit
    components (red, green, blue)".  A component is a [Z]; the code that
    stores one writes the reduction modulo 256 out. *)
Record pixel_t := mkpixel { r : Z; g : Z; b : Z }.

(** Modelled from the spec: [img_t] of [ppm.h], "a contiguous sequence of
    Pixel of length width x height (row-major)" with its width and height,
    which [ppm.c] handles as [int].  The row view [pix2d] points into
    [pix1d] and is derived from it. *)
Record img_t := mkimg { width : Z; height : Z; pix1d : list pixel_t }.

Definition pixel0 : pixel_t := mkpixel 0 0 0.

(** [img->pix2d[j][i]] is [img->pix1d[width*j + i]].  [alloc_img] sets the
    row pointers for the rows [0 <= j < height] and computes [width*j] in
    [int]; the index below is that of the C code for these rows as long
    as [width*height] fits an [int], which is where the theorems use
    it. *)
Definition pix2d (img : img_t) (j i : nat) : pixel_t :=
  nth (Z.to_nat (width img) * j + i) (pix1d img) pixel0.

Record ppm_header_t := mkheader {
  type : PPM_TYPE;
  hwidth : Z;
  hheight : Z;
  maxval : Z;
  data_offset : Z
}.

(** Sizes of the types of [ppm.h] on an LP64 target; only [malloc] looks
    at them. *)
Definition sizeof_pixel_t : Z := 3.
Definition sizeof_ptr : Z := 8.
Definition sizeof_img_t : Z := 24.

(** ** Output: [fprintf] and [fwrite] *)

(** Decimal digits of a non-negative number, most significant first. *)
Fixpoint digits_of (fuel : nat) (n : Z) (acc : list ascii) : list ascii :=
  match fuel with
  | O => acc
  | S k =>
      let acc' := chr (48 + n mod 10) :: acc in
      if n / 10 =? 0 then acc' else digits_of k (n / 10) acc'
  end.

Definition decimal (n : Z) : list ascii :=
  digits_of (S (Z.to_nat (Z.log2 n))) n [].

(** The conversion [%d]. *)
Definition fmt_d (n : Z) : list ascii :=
  if n <? 0 then "-"%char :: decimal (- n) else decimal n.

(** [fprintf(f, "%s\n%d %d\n255\n", tag, w, h)] *)
Definition fprintf_header (tag : list ascii) (w h : Z) : list ascii :=
  tag ++ [NL] ++ fmt_d w ++ [" "%char] ++ fmt_d h ++ [NL] ++ str "255" ++ [NL].

(** [fprintf(f, "%d %d %d ", p->r, p->g, p->b)] *)
Definition fprintf_pixel (p : pixel_t) : list ascii :=
  fmt_d (r p) ++ [" "%char] ++ fmt_d (g p) ++ [" "%char] ++ fmt_d (b p) ++ [" "%char].

(** The three [fwrite] calls of one binary pixel. *)
Definition fwrite_pixel (p : pixel_t) : list ascii :=
  [chr (r p); chr (g p); chr (b p)].

(** ** write_ppm *)

(** The loop of the [PPM_RAW] branch, [i] running up to [n]. *)
Fixpoint write_raw (n i : nat) (pix : list pixel_t) : list ascii :=
  match n with
  | O => []
  | S n' => fwrite_pixel (nth i pix pixel0) ++ write_raw n' (S i) pix
  end.

(** The loop of the [PPM_ASCII] branch; [count] is the running counter. *)
Fixpoint write_ascii (n i : nat) (count : Z) (pix : list pixel_t) : list ascii :=
  match n with
  | O => []
  | S n' =>
      let count' := to_int (count + 1) in
      fprintf_pixel (nth i pix pixel0)
        ++ (if Z.rem count' 5 =? 0 then [NL] else [])
        ++ write_ascii n' (S i) count' pix
  end.

(** [write_ppm]: [dst_ok] tells whether [fopen(filename, "w")] succeeds.
    The result is the returned boolean and the bytes written to the file
    ([None] when nothing was opened).  The results of [fprintf], [fwrite]
    and [fclose] are not looked at by the C code. *)
Definition write_ppm (dst_ok : bool) (img : img_t) (ty : PPM_TYPE)
  : bool * option (list ascii) :=
  if negb dst_ok then (false, None)
  else
    let n := Z.to_nat (to_int (width img * height img)) in
    match ty with
    | PPM_RAW =>
        (true, Some (fprintf_header (str "P6") (width img) (height img)
                       ++ write_raw n 0 (pix1d img)))
    | PPM_ASCII =>
        (true, Some (fprintf_header (str "P3") (width img) (height img)
                       ++ write_ascii n 0 0 (pix1d img)))
    end.

(** ** Input: [fscanf], [sscanf], [fread], [strcmp] *)

(** A white-space directive of [scanf] (here ["\n"] and [" "]): input is
    consumed up to the first character that is not white space. *)
Fixpoint skip_ws (s : list ascii) : list ascii :=
  match s with
  | c :: s' => if isspace c then skip_ws s' else s
  | [] => []
  end.

(** The conversion [%N[^\n]]: at most [N] characters other than the
    newline.  The result is the matched text and the rest of the stream. *)
Fixpoint scan_line (N : nat) (s : list ascii) : list ascii * list ascii :=
  match N, s with
  | S k, c :: s' =>
      if Ascii.eqb c NL then ([], s)
      else let (m, rest) := scan_line k s' in (c :: m, rest)
  | _, _ => ([], s)
  end.

(** [fscanf(f, "%N[^\n]", line)]: an empty match is a matching failure and
    leaves [line] as it was.  A buffer is the list of the characters
    before its terminating zero. *)
Definition fscanf_line (N : nat) (f line : list ascii) : list ascii * list ascii :=
  match scan_line N f with
  | ([], _) => (line, f)
  | (m, f') => (m, f')
  end.

(** The buffer read as a C string: it ends at the first zero byte. *)
Fixpoint cstr (l : list ascii) : list ascii :=
  match l with
  | c :: l' => if Ascii.eqb c NUL then [] else c :: cstr l'
  | [] => []
  end.

Fixpoint bytes_eqb (a b : list ascii) : bool :=
  match a, b with
  | [], [] => true
  | x :: a', y :: b' => Ascii.eqb x y && bytes_eqb a' b'
  | _, _ => false
  end.

(** [strcmp(a, b) == 0] *)
Definition strcmp_eq (a b : list ascii) : bool := bytes_eqb (cstr a) (cstr b).

(** The digits of a number, accumulated as [strtoul] does. *)
Fixpoint scan_digits (s : list ascii) (acc : Z) : Z * list ascii :=
  match s with
  | c :: s' =>
      if isdigit c then scan_digits s' (acc * 10 + (code c - 48)) else (acc, s)
  | [] => (acc, [])
  end.

(** What glibc stores for [%u] on an LP64 target: the digits go through
    [strtoul] (saturating at [ULONG_MAX], negated under a minus sign) and
    the result is converted to [unsigned int].  ISO C leaves the case of a
    number that does not fit undefined. *)
Definition strtoul_value (neg : bool) (v : Z) : Z :=
  if v >? ULONG_MAX then ULONG_MAX
  else if neg then to_ulong (- v) else v.

Inductive conv :=
| InputFailure
| MatchingFailure
| Converted (v : Z) (rest : list ascii).

(** The conversion [%u]: white space is skipped, a sign is accepted, at
    least one digit is required. *)
Definition scan_u (s : list ascii) : conv :=
  match skip_ws s with
  | [] => InputFailure
  | c :: s1 =>
      let neg := Ascii.eqb c "-"%char in
      let s2 := if neg || Ascii.eqb c "+"%char then s1 else c :: s1 in
      match s2 with
      | d :: _ =>
          if isdigit d
          then let (v, rest) := scan_digits s2 0 in
               Converted (to_uint (strtoul_value neg v)) rest
          else MatchingFailure
      | [] => MatchingFailure
      end
  end.

Definition EOF : Z := -1.

(** [sscanf(line, "%u %u", &w, &h)]: the return value and the two
    variables, which keep their value when not assigned. *)
Definition sscanf_u_u (line : list ascii) (w h : Z) : Z * Z * Z :=
  match scan_u (cstr line) with
  | InputFailure => (EOF, w, h)
  | MatchingFailure => (0, w, h)
  | Converted w' s1 =>
      match scan_u (skip_ws s1) with
      | Converted h' _ => (2, w', h')
      | _ => (1, w', h)
      end
  end.

(** [sscanf(line, "%u ", &m)] *)
Definition sscanf_u (line : list ascii) (m : Z) : Z * Z :=
  match scan_u (cstr line) with
  | InputFailure => (EOF, m)
  | MatchingFailure => (0, m)
  | Converted m' _ => (1, m')
  end.

(** [fscanf(f, "%u %u %u", &r, &g, &b)]: the return value, the three
    values when all were converted, and the stream after the call. *)
Definition fscanf_u_u_u (f : list ascii) : Z * (Z * Z * Z) * list ascii :=
  match scan_u f with
  | InputFailure => (EOF, (0, 0, 0), [])
  | MatchingFailure => (0, (0, 0, 0), [])
  | Converted r' f1 =>
      match scan_u (skip_ws f1) with
      | Converted g' f2 =>
          match scan_u (skip_ws f2) with
          | Converted b' f3 => (3, (r', g', b'), f3)
          | _ => (2, (r', g', 0), [])
          end
      | _ => (1, (r', 0, 0), [])
      end
  end.

(** [fread(&x, 1, 1, f)]: at the end of the file [x] keeps its value. *)
Definition fread1 (f : list ascii) (x : Z) : Z * list ascii :=
  match f with
  | c :: f' => (code c, f')
  | [] => (x, [])
  end.

(** ** Non-termination *)

Inductive outcome (A : Type) :=
| Diverges
| Returns (a : A).
Arguments Diverges {A}.
Arguments Returns {A} a.

Definition bind {A B} (m : outcome A) (k : A -> outcome B) : outcome B :=
  match m with
  | Diverges => Diverges
  | Returns a => k a
  end.

Notation "'let*' x ':=' m 'in' k" := (bind m (fun x => k))
  (at level 10, x pattern, m at level 100, k at level 200).

(** ** readline *)

(** One run of the [while (1)] loop per unit of fuel.  The static counter
    [line_nb] is only incremented and takes no part in the result. *)
Fixpoint readline_loop (fuel : nat) (max_line_length : nat) (f line : list ascii)
  : outcome (list ascii * list ascii) :=
  match fuel with
  | O => Diverges
  | S fuel' =>
      let (line1, f1) := fscanf_line max_line_length f line in
      let f2 := skip_ws f1 in
      if Ascii.eqb (hd NUL line1) "#"%char
      then readline_loop fuel' max_line_length f2 line1
      else Returns (line1, f2)
  end.

(** A run of the loop that goes round again either consumed input or left
    the whole state as it was; [readline_loop_fuel] below shows that with
    this much fuel [Diverges] stands for a loop that never ends. *)
Definition readline (max_line_length : nat) (f line : list ascii)
  : outcome (list ascii * list ascii) :=
  readline_loop (S (List.length f)) max_line_length f line.

(** ** load_header *)

Definition MAX_LENGTH : nat := 1024.

Definition msg_format : list ascii :=
  str "PPM reader: unsupported format!" ++ [NL].
Definition msg_range : list ascii :=
  str "PPM reader: doesn't support more than 1 byte per component!" ++ [NL].

(** [file] is the content of the file, [None] when [fopen] fails; [junk] is
    what the automatic array [line] happens to hold on entry.  The result
    is the returned header ([None] for [NULL]) and the text printed on
    [stderr].  The stream argument of each step is what is left to read,
    so [ftell] is the length of what has been consumed. *)
Definition load_header (file : option (list ascii)) (junk : list ascii)
  : outcome (option ppm_header_t * list ascii) :=
  match file with
  | None => Returns (None, [])
  | Some content =>
      let* (line1, f1) := readline MAX_LENGTH content junk in
      match (if strcmp_eq (str "P3") line1 then Some PPM_ASCII
             else if strcmp_eq (str "P6") line1 then Some PPM_RAW
             else None) with
      | None => Returns (None, msg_format)
      | Some ty =>
          let* (line2, f2) := readline MAX_LENGTH f1 line1 in
          let '(matches, w, h) := sscanf_u_u line2 0 0 in
          if negb (matches =? 2) then Returns (None, [])
          else
            let* (line3, f3) := readline MAX_LENGTH f2 line2 in
            let (matches, m) := sscanf_u line3 0 in
            if negb (matches =? 1) then Returns (None, [])
            else if m >? 255 then Returns (None, msg_range)
            else Returns
                   (Some (mkheader ty w h m
                            (Z.of_nat (List.length content - List.length f3))),
                    [])
      end
  end.

(** ** alloc_img and load_ppm *)

(** Everything [load_ppm] takes from its environment. *)
Record world := mkworld {
  file : option (list ascii);   (* the file [filename], [None]: cannot be opened *)
  stack_junk : list ascii;      (* initial content of the array [line] *)
  malloc_ok : Z -> bool;        (* does [malloc] of that many bytes succeed *)
  heap_junk : nat -> pixel_t    (* initial content of a fresh [pix1d] *)
}.

(** [malloc]'s argument is computed in [size_t]. *)
Definition alloc_img (w : world) (width height : Z) : option img_t :=
  if negb (malloc_ok w sizeof_img_t) then None
  else if negb (malloc_ok w (to_ulong (to_ulong (sizeof_pixel_t * width) * height)))
  then None
  else if negb (malloc_ok w (to_ulong (sizeof_ptr * height))) then None
  else Some (mkimg width height
               (map (heap_junk w) (seq 0 (Z.to_nat (width * height))))).

(** [pix[i] = p]; the buffer is never written past its end when the
    allocation succeeded for the sizes of the header. *)
Fixpoint store (i : nat) (p : pixel_t) (pix : list pixel_t) : list pixel_t :=
  match pix, i with
  | [], _ => []
  | _ :: pix', O => p :: pix'
  | q :: pix', S i' => q :: store i' p pix'
  end.

(** The loop of the [PPM_ASCII] branch; [None] stands for [goto error2]. *)
Fixpoint load_ascii (n i : nat) (maxv : Z) (f : list ascii) (pix : list pixel_t)
  : option (list pixel_t) :=
  match n with
  | O => Some pix
  | S n' =>
      let '(matches, (r', g', b'), f') := fscanf_u_u_u f in
      if negb (matches =? 3) then None
      else if (r' >? maxv) || (g' >? maxv) || (b' >? maxv) then None
      else load_ascii n' (S i) maxv f'
             (store i (mkpixel (to_uint8 r') (to_uint8 g') (to_uint8 b')) pix)
  end.

(** The loop of the other branch: three [fread] calls per pixel, their
    results ignored. *)
Fixpoint load_raw (n i : nat) (f : list ascii) (pix : list pixel_t)
  : list pixel_t :=
  match n with
  | O => pix
  | S n' =>
      let p := nth i pix pixel0 in
      let (r', f1) := fread1 f (r p) in
      let (g', f2) := fread1 f1 (g p) in
      let (b', f3) := fread1 f2 (b p) in
      load_raw n' (S i) f3 (store i (mkpixel r' g' b') pix)
  end.

(** [load_ppm]: the returned image ([None] for [NULL]) and the text on
    [stderr].  The file is taken to be the same at both [fopen] calls. *)
Definition load_ppm (w : world) : outcome (option img_t * list ascii) :=
  let* (hdr, err) := load_header (file w) (stack_junk w) in
  match hdr with
  | None => Returns (None, err)
  | Some header =>
      match alloc_img w (to_int (hwidth header)) (to_int (hheight header)) with
      | None => Returns (None, err)
      | Some img =>
          match file w with
          | None => Returns (None, err)
          | Some content =>
              let f := skipn (Z.to_nat (data_offset header)) content in
              let n := Z.to_nat (to_uint (hwidth header * hheight header)) in
              match type header with
              | PPM_ASCII =>
                  match load_ascii n 0 (maxval header) f (pix1d img) with
                  | None => Returns (None, err)
                  | Some pix =>
                      Returns (Some (mkimg (width img) (height img) pix), err)
                  end
              | PPM_RAW =>
                  Returns (Some (mkimg (width img) (height img)
                                   (load_raw n 0 f (pix1d img))), err)
              end
          end
      end
  end.

(** * Notions used to state the properties *)

(** Number of newlines in a text. *)
Definition count_nl (l : list ascii) : nat := count_occ ascii_dec l NL.

(** The pixel block as the format describes it: the pixels of the flat
    buffer in order, each followed by a newline when it is the 5th, 10th,
    15th ... pixel written. *)
Definition text_block (pix : list pixel_t) (from n : nat) : list ascii :=
  flat_map (fun i => fprintf_pixel (nth i pix pixel0)
                       ++ (if Z.of_nat (S i) mod 5 =? 0 then [NL] else []))
           (seq from n).

(** The 1x1 image with the pixel (255,0,128) and the bytes of its binary
    file: the header text followed by 0xFF, 0x00, 0x80. *)
Definition img_1x1 : img_t := mkimg 1 1 [mkpixel 255 0 128].

Definition bytes_1x1 : list ascii :=
  str "P6" ++ [NL] ++ str "1 1" ++ [NL] ++ str "255" ++ [NL]
    ++ [chr 255; chr 0; chr 128].

(** A 4x3 image, 12 pixels. *)
Definition img_4x3 : img_t :=
  mkimg 4 3 (map (fun i => mkpixel (Z.of_nat i) 0 255) (seq 0 12)).

(** A world in which the file holds [s], every allocation succeeds, the
    array [line] starts as [junk] and fresh pixel memory as [heap]. *)
Definition world_of (s junk : list ascii) (heap : nat -> pixel_t) : world :=
  mkworld (Some s) junk (fun _ => true) heap.

(** The header ["P6\n1 1\n255\n"] followed by two bytes only. *)
Definition src_truncated : list ascii :=
  str "P6" ++ [NL] ++ str "1 1" ++ [NL] ++ str "255" ++ [NL] ++ str "ab".

(** A 1x1 image whose first component is the code of a blank. *)
Definition img_blank : img_t := mkimg 1 1 [mkpixel 32 0 128].

(** The error taxonomy of the specification. *)
Inductive ppm_error :=
| UnsupportedFormat | MalformedHeader | UnsupportedRange | AllocationFailed
| TruncatedData | MalformedPixelData | ComponentOutOfRange
| DestinationUnavailable | WriteFailed.

(** Three sources that fail for three different reasons of the taxonomy:
    a dimensions line that is not numeric, a pixel token that is not
    numeric, a component above the declared maximum. *)
Definition src_bad_dims : list ascii :=
  str "P3" ++ [NL] ++ str "x y" ++ [NL] ++ str "255" ++ [NL] ++ str "1 2 3 ".
Definition src_bad_token : list ascii :=
  str "P3" ++ [NL] ++ str "1 1" ++ [NL] ++ str "255" ++ [NL] ++ str "1 2 z ".
Definition src_bad_range : list ascii :=
  str "P3" ++ [NL] ++ str "1 1" ++ [NL] ++ str "100" ++ [NL] ++ str "1 2 101 ".

(** A line begins at the head of [t]: there is a character and it is not
    white space. *)
Definition starts_line (t : list ascii) : bool :=
  match t with
  | c :: _ => negb (isspace c)
  | [] => false
  end.

(** Leading and trailing white space removed. *)
Definition trim (l : list ascii) : list ascii :=
  rev (skip_ws (rev (skip_ws l))).

(** Sources with a good and with a bad maximum value. *)
Definition src_maxval_256 : list ascii :=
  str "P6" ++ [NL] ++ str "1 1" ++ [NL] ++ str "256" ++ [NL] ++ str "abc".

Definition src_tag_P5 : list ascii :=
  str "# grey" ++ [NL] ++ str "P5" ++ [NL] ++ str "1 1" ++ [NL] ++ str "255"
    ++ [NL] ++ str "a".

(** The white-space separated tokens of a line. *)
Fixpoint tokens_from (cur : list ascii) (s : list ascii) : list (list ascii) :=
  match s with
  | [] => match cur with [] => [] | _ => [rev cur] end
  | c :: s' =>
      if isspace c
      then match cur with
           | [] => tokens_from [] s'
           | _ => rev cur :: tokens_from [] s'
           end
      else tokens_from (c :: cur) s'
  end.

Definition tokens (s : list ascii) : list (list ascii) := tokens_from [] s.

(** A non-negative integer: digits, at least one. *)
Definition is_uint (t : list ascii) : bool :=
  match t with
  | [] => false
  | _ => forallb isdigit t
  end.

(** "Exactly two whitespace-separated non-negative integers". *)
Definition two_integers_exactly (l : list ascii) : bool :=
  match tokens l with
  | [t1; t2] => is_uint t1 && is_uint t2
  | _ => false
  end.

Fixpoint drop_digits (s : list ascii) : list ascii :=
  match s with
  | c :: s' => if isdigit c then drop_digits s' else s
  | [] => []
  end.

(** [s] begins with a number in the syntax of [%u], an optional sign and
    digits; the result is what follows the number. *)
Definition number_prefix (s : list ascii) : option (list ascii) :=
  match s with
  | [] => None
  | c :: s1 =>
      let s2 := if Ascii.eqb c "-"%char || Ascii.eqb c "+"%char then s1 else s in
      match s2 with
      | d :: _ => if isdigit d then Some (drop_digits s2) else None
      | [] => None
      end
  end.

(** The line begins, after optional white space, with a number that is
    followed, after optional white space, by a second number. *)
Definition begins_with_two_numbers (l : list ascii) : bool :=
  match number_prefix (skip_ws l) with
  | Some rest =>
      match number_prefix (skip_ws rest) with
      | Some _ => true
      | None => false
      end
  | None => false
  end.

(** A header whose dimensions line has three tokens. *)
Definition src_three_dims : list ascii :=
  str "P6" ++ [NL] ++ str "2 3 4" ++ [NL] ++ str "255" ++ [NL].

Definition src_one_dim : list ascii :=
  str "P6" ++ [NL] ++ str "640" ++ [NL] ++ str "255" ++ [NL].

(** The triples that [n] successive calls of [fscanf(f, "%u %u %u", ...)]
    convert, when all of them convert three numbers. *)
Fixpoint scan_triples (n : nat) (f : list ascii) : option (list (Z * Z * Z)) :=
  match n with
  | O => Some []
  | S k =>
      let '(matches, t, f') := fscanf_u_u_u f in
      if matches =? 3
      then match scan_triples k f' with
           | Some ts => Some (t :: ts)
           | None => None
           end
      else None
  end.

(** One of the three components is above the maximum. *)
Definition exceeds (maxv : Z) (t : Z * Z * Z) : bool :=
  let '(r', g', b') := t in (r' >? maxv) || (g' >? maxv) || (b' >? maxv).

(** A comment line, without its newline: it begins with ['#']. *)
Definition comment_line (c : list ascii) : bool :=
  Ascii.eqb (hd NUL c) "#"%char && forallb (fun x => negb (Ascii.eqb x NL)) c.

(** A comment line that fits the working buffer of [load_header]. *)
Definition short_comment_line (c : list ascii) : bool :=
  comment_line c && (List.length c <=? MAX_LENGTH)%nat.

(** Consecutive comment lines, each with its newline. *)
Definition comment_block (cs : list (list ascii)) : list ascii :=
  flat_map (fun c => c ++ [NL]) cs.

Definition insert_at (p : nat) (blk s : list ascii) : list ascii :=
  firstn p s ++ blk ++ skipn p s.

(** The streams at which the runs of the loop of [readline] begin to read
    a line: the stream of the call, then the stream after each comment
    line skipped. *)
Fixpoint loop_starts (fuel N : nat) (f line : list ascii) : list (list ascii) :=
  match fuel with
  | O => []
  | S fuel' =>
      f :: (let (line1, f1) := fscanf_line N f line in
            if Ascii.eqb (hd NUL line1) "#"%char
            then loop_starts fuel' N (skip_ws f1) line1
            else [])
  end.

Definition line_starts (N : nat) (f line : list ascii) : list (list ascii) :=
  loop_starts (S (List.length f)) N f line.

(** The offsets in the file at which [load_header] begins to read a line,
    for the tag, the dimensions and the maximum value in turn. *)
Definition header_line_offsets (content junk : list ascii) : list nat :=
  let off t := (List.length content - List.length t)%nat in
  map off (line_starts MAX_LENGTH content junk)
  ++ match readline MAX_LENGTH content junk with
     | Diverges => []
     | Returns (l1, f1) =>
         map off (line_starts MAX_LENGTH f1 l1)
         ++ match readline MAX_LENGTH f1 l1 with
            | Diverges => []
            | Returns (l2, f2) => map off (line_starts MAX_LENGTH f2 l2)
            end
     end.

(** The same property as a relation: from stream [f] and buffer [line]
    the loop of [readline] comes to read a line at [t]. *)
Inductive line_start (N : nat) : list ascii -> list ascii -> list ascii -> Prop :=
| line_start_here f line : line_start N f line f
| line_start_next f line line1 f1 t :
    fscanf_line N f line = (line1, f1) ->
    Ascii.eqb (hd NUL line1) "#"%char = true ->
    line_start N (skip_ws f1) line1 t ->
    line_start N f line t.

(** The header with its data offset moved by [k] bytes. *)
Definition shift_header (k : nat) (h : ppm_header_t) : ppm_header_t :=
  mkheader (type h) (hwidth h) (hheight h) (maxval h) (data_offset h + Z.of_nat k).

Definition src_plain : list ascii :=
  str "P6" ++ [NL] ++ str "1 1" ++ [NL] ++ str "255" ++ [NL].

(** A comment line of 1025 characters. *)
Definition long_comment : list ascii := "#"%char :: repeat "a"%char 1024.

(** A header that stops after the dimensions line. *)
Definition src_no_maxval : list ascii := str "P6" ++ [NL] ++ str "1 1" ++ [NL].

Definition src_commented : list ascii :=
  str "P3" ++ [NL] ++ str "# old" ++ [NL] ++ str "2 1" ++ [NL] ++ str "255"
    ++ [NL] ++ str "10 20 30 40 50 60 ".

(** The number that a run of decimal digits denotes, continuing from [a]. *)
Fixpoint value_of (l : list ascii) (a : Z) : Z :=
  match l with
  | c :: l' => value_of l' (a * 10 + (code c - 48))
  | [] => a
  end.

(** No digit at the head of [s]. *)
Definition no_digit_ahead (s : list ascii) : bool :=
  match s with
  | c :: _ => negb (isdigit c)
  | [] => true
  end.

(** An image as the data model wants it: positive dimensions that fit an
    [int] together with their product, a buffer of [width*height] pixels,
    components between 0 and 255. *)
Definition byte_pixel (p : pixel_t) : Prop :=
  0 <= r p <= 255 /\ 0 <= g p <= 255 /\ 0 <= b p <= 255.

Record well_formed (img : img_t) : Prop := {
  wf_width : 0 < width img;
  wf_height : 0 < height img;
  wf_size : width img * height img < 2 ^ 31;
  wf_length : Z.of_nat (List.length (pix1d img)) = width img * height img;
  wf_bytes : Forall byte_pixel (pix1d img)
}.

(** The text source of the specification's scenario: a 2x1 image. *)
Definition src_text_2x1 : list ascii :=
  str "P3" ++ [NL] ++ str "2 1" ++ [NL] ++ str "255" ++ [NL]
    ++ str "10 20 30 40 50 60 ".

(** * The example program (ppm_example.c) *)

Definition EXIT_SUCCESS : Z := 0.
Definition EXIT_FAILURE : Z := 1.
Definition QUOTE : ascii := "034"%char.

(** [p->r /= 2; p->g /= 2; p->b /= 2;] on components of type [uint8_t]:
    promoted to [int], divided, converted back. *)
Definition halve (p : pixel_t) : pixel_t :=
  mkpixel (to_uint8 (Z.quot (r p) 2)) (to_uint8 (Z.quot (g p) 2))
          (to_uint8 (Z.quot (b p) 2)).

(** [img->pix2d[j][i] = p]: a write through the row pointer that
    [alloc_img] set to [img->pix1d + width*j], for a row [j < height] of
    an image whose [width*height] fits an [int]. *)
Definition set_pix2d (img : img_t) (j i : nat) (p : pixel_t) : img_t :=
  mkimg (width img) (height img)
        (store (Z.to_nat (width img) * j + i) p (pix1d img)).

(** The inner loop of [main], [i] running over [n] columns of row [j]. *)
Fixpoint darken_cols (n i j : nat) (img : img_t) : img_t :=
  match n with
  | O => img
  | S n' => darken_cols n' (S i) j (set_pix2d img j i (halve (pix2d img j i)))
  end.

(** The outer loop of [main], [j] running over [n] rows. *)
Fixpoint darken_rows (n j : nat) (img : img_t) : img_t :=
  match n with
  | O => img
  | S n' =>
      darken_rows n' (S j)
        (darken_cols (Z.to_nat (Z.quot (width img) 2)) 0 j img)
  end.

(** "Reduce image's first quadrant's brightness intensity". *)
Definition darken (img : img_t) : img_t :=
  darken_rows (Z.to_nat (Z.quot (height img) 2)) 0 img.

(** What [main] takes from its environment: the files that can be read,
    by name; whether a name can be opened for writing; what [load_ppm]
    needs; and [basename] of [libgen.h], which only shapes the usage
    text. *)
Record system := mksystem {
  fs : list ascii -> option (list ascii);
  can_write : list ascii -> bool;
  sys_stack : list ascii;
  sys_malloc : Z -> bool;
  sys_heap : nat -> pixel_t;
  basename : list ascii -> list ascii
}.

(** What a run of [main] leaves: the exit status, the text on [stderr]
    and the output: the name that was opened for writing and the bytes
    that [write_ppm] passed to [fprintf] and [fwrite], whose results the
    code does not look at. *)
Record run := mkrun {
  status : Z;
  stderr : list ascii;
  written : option (list ascii * list ascii)
}.

(** The text printed by [usage], which then calls [exit(EXIT_FAILURE)]. *)
Definition usage (sys : system) (argv : list (list ascii)) : list ascii :=
  str "usage: " ++ basename sys (nth 0 argv []) ++ str " [-ascii] input output"
    ++ [NL]
    ++ str "Where input and output are PPM files and the optional argument"
    ++ [NL]
    ++ str "-ascii specifies to write a plain text PPM file." ++ [NL].

(** The command line of [main]: the variant to write, the input and the
    output, or [None] where [usage] is called.  An argument is the list of
    its characters; [argc] is the length of [argv]. *)
Definition parse_args (argv : list (list ascii))
  : option (PPM_TYPE * list ascii * list ascii) :=
  let argc := Z.of_nat (List.length argv) in
  if argc =? 3 then Some (PPM_RAW, nth 1 argv [], nth 2 argv [])
  else if argc =? 4 then
    if negb (strcmp_eq (str "-ascii") (nth 1 argv [])) then None
    else Some (PPM_ASCII, nth 2 argv [], nth 3 argv [])
  else None.

Definition failed (what name : list ascii) : list ascii :=
  str "Failed " ++ what ++ [" "%char; QUOTE] ++ name ++ [QUOTE] ++ str "!"
    ++ [NL].

(** [main]; [free_img] only releases memory and leaves no trace here. *)
Definition main (sys : system) (argv : list (list ascii)) : outcome run :=
  match parse_args argv with
  | None => Returns (mkrun EXIT_FAILURE (usage sys argv) None)
  | Some (ty, input, output) =>
      let* (loaded, err) :=
        load_ppm (mkworld (fs sys input) (sys_stack sys) (sys_malloc sys)
                    (sys_heap sys)) in
      match loaded with
      | None =>
          Returns (mkrun EXIT_FAILURE (err ++ failed (str "loading") input) None)
      | Some img =>
          match write_ppm (can_write sys output) (darken img) ty with
          | (false, _) =>
              Returns (mkrun EXIT_FAILURE
                         (err ++ failed (str "writing") output) None)
          | (true, out) =>
              Returns (mkrun EXIT_SUCCESS err
                         (option_map (fun bytes => (output, bytes)) out))
          end
      end
  end.

(** A system with one readable file, in which every allocation succeeds
    and every name can be opened for writing. *)
Definition system_of (name content : list ascii) : system :=
  mksystem (fun n => if bytes_eqb n name then Some content else None)
           (fun _ => true) [] (fun _ => true) (fun _ => pixel0)
           (fun path => path).

(** The longest run of characters between newlines, [cur] being the length
    of the run under way. *)
Fixpoint longest_line (cur : nat) (l : list ascii) : nat :=
  match l with
  | [] => cur
  | c :: l' =>
      if Ascii.eqb c NL then Nat.max cur (longest_line 0 l')
      else longest_line (S cur) l'
  end.

(** A pixel from the three numbers of a text triple. *)
Definition triple_pixel (t : Z * Z * Z) : pixel_t :=
  let '(r', g', b') := t in mkpixel r' g' b'.

(** A 4x2 image with components up to 240, for the examples. *)
Definition img_4x2 : img_t :=
  mkimg 4 2 (map (fun i => mkpixel (Z.of_nat (30 * i)) 200 (Z.of_nat i)) (seq 0 8)).

(** Sources for the examples of the header reader. *)
Definition src_two_comments : list ascii :=
  comment_block [str "# made by hand"; str "#"] ++ str "P6" ++ NL :: str "1 1".

Definition src_only_comments : list ascii :=
  comment_block [str "# nothing else"] ++ [NL; " "%char].

(** Sources for the examples of the pixel decoders. *)
Definition src_text_maxval_100 : list ascii :=
  str "P3" ++ [NL] ++ str "1 2" ++ [NL] ++ str "100" ++ [NL]
    ++ str "1 2 3" ++ [NL] ++ str " 100 0 7".

Definition src_binary_0x5 : list ascii :=
  str "P6" ++ [NL] ++ str "0 5" ++ [NL] ++ str "255" ++ [NL] ++ str "abcdef".


(** ** Sources laid out line by line *)

(** A line that the header reader takes in one piece: it is not empty,
    its first character is neither white space nor ['#'], it holds no
    newline and it has at most [MAX_LENGTH] characters. *)
Definition header_line (l : list ascii) : bool :=
  starts_line l && negb (Ascii.eqb (hd NUL l) "#"%char)
  && forallb (fun x => negb (Ascii.eqb x NL)) l
  && (List.length l <=? MAX_LENGTH)%nat.

(** What may follow a line: the end of the file, or a newline and
    whatever comes after it. *)
Definition line_end (tail : list ascii) : bool :=
  match tail with
  | [] => true
  | c :: _ => Ascii.eqb c NL
  end.

(** The tag line of each variant. *)
Definition tag_of (ty : PPM_TYPE) : list ascii :=
  match ty with
  | PPM_ASCII => str "P3"
  | PPM_RAW => str "P6"
  end.

(** A source that begins with the comment lines [c0], each with its
    newline, then has the line [l1], then [tail]. *)
Definition source_1 (c0 : list (list ascii)) (l1 tail : list ascii)
  : list ascii :=
  comment_block c0 ++ l1 ++ tail.

(** The same with a second line: after [l1] come a newline, the white
    space [ws1], the comment lines [c1] and the line [l2]. *)
Definition source_2 (c0 : list (list ascii)) (l1 ws1 : list ascii)
  (c1 : list (list ascii)) (l2 tail : list ascii) : list ascii :=
  source_1 c0 l1 (NL :: ws1 ++ source_1 c1 l2 tail).

(** The same with a third line. *)
Definition source_3 (c0 : list (list ascii)) (l1 ws1 : list ascii)
  (c1 : list (list ascii)) (l2 ws2 : list ascii)
  (c2 : list (list ascii)) (l3 tail : list ascii) : list ascii :=
  source_2 c0 l1 ws1 c1 l2 (NL :: ws2 ++ source_1 c2 l3 tail).

(** The lines of a source in the usual sense: the texts between
    newlines. *)
Fixpoint lines_from (cur s : list ascii) : list (list ascii) :=
  match s with
  | [] => [rev cur]
  | c :: s' =>
      if Ascii.eqb c NL then rev cur :: lines_from [] s'
      else lines_from (c :: cur) s'
  end.

Definition source_lines (s : list ascii) : list (list ascii) :=
  lines_from [] s.

(** The lines that are not comments, in order: the first is the
    specification's "first non-comment line", the third its
    "max-component-value line". *)
Definition non_comment_lines (s : list ascii) : list (list ascii) :=
  filter (fun l => negb (Ascii.eqb (hd NUL l) "#"%char)) (source_lines s).

(** A first line that holds a zero byte after the tag. *)
Definition src_tag_nul : list ascii :=
  str "P6" ++ NUL :: str "junk" ++ [NL] ++ str "1 1" ++ [NL] ++ str "255"
    ++ [NL] ++ str "abc".

(** A comment line of 1027 characters that ends with ["255"], before a
    maximum value of 256. *)
Definition src_long_comment_256 : list ascii :=
  str "P6" ++ [NL] ++ str "1 1" ++ [NL]
    ++ ("#"%char :: repeat "a"%char 1023 ++ str "255") ++ [NL]
    ++ str "256" ++ [NL] ++ str "abc".

(** A maximum-value line that is not a number. *)
Definition src_bad_maxval : list ascii :=
  str "P6" ++ [NL] ++ str "1 1" ++ [NL] ++ str "max" ++ [NL] ++ str "abc".

(** A dimensions line with text after the second number. *)
Definition src_dims_trailing : list ascii :=
  str "P6" ++ [NL] ++ str "2 3 4 and more" ++ [NL] ++ str "255" ++ [NL].
(** * Properties *)

(** ** Characters *)

Lemma code_range (c : ascii) : 0 <= code c < 256.
Proof.
  unfold code. pose proof (N_ascii_bounded c). lia.
Qed.

Lemma code_chr (z : Z) : 0 <= z < 256 -> code (chr z) = z.
Proof.
  intros Hz. unfold code, chr.
  rewrite Z.mod_small by lia.
  rewrite N_ascii_embedding by lia.
  apply Z2N.id; lia.
Qed.

Lemma chr_code (c : ascii) : chr (code c) = c.
Proof.
  unfold chr. rewrite Z.mod_small by apply code_range.
  unfold code. rewrite N2Z.id. apply ascii_N_embedding.
Qed.

Lemma isdigit_chr (d : Z) : 0 <= d < 10 -> isdigit (chr (48 + d)) = true.
Proof.
  intros Hd. unfold isdigit. rewrite code_chr by lia.
  apply andb_true_intro; split; apply Z.leb_le; lia.
Qed.

Lemma isdigit_not_space (c : ascii) : isdigit c = true -> isspace c = false.
Proof.
  unfold isdigit, isspace. intros H.
  apply andb_prop in H as [H1 H2]. apply Z.leb_le in H1.
  apply orb_false_intro.
  - apply Z.eqb_neq; lia.
  - apply andb_false_intro2. apply Z.leb_gt; lia.
Qed.

Lemma isdigit_not_NL (c : ascii) : isdigit c = true -> c <> NL.
Proof.
  intros H ->. discriminate H.
Qed.

(** ** The scanning primitives *)

Lemma skip_ws_split (s : list ascii) :
  exists ws, s = ws ++ skip_ws s /\ forallb isspace ws = true.
Proof.
  induction s as [|c s IH]; [exists []; split; reflexivity|].
  cbn [skip_ws]. destruct (isspace c) eqn:Hc.
  - destruct IH as (ws & E & Hws). exists (c :: ws). split.
    + cbn. now rewrite <- E.
    + cbn. now rewrite Hc.
  - exists []. split; reflexivity.
Qed.

Lemma skip_ws_length (s : list ascii) :
  (List.length (skip_ws s) <= List.length s)%nat.
Proof.
  destruct (skip_ws_split s) as (ws & E & _).
  rewrite E at 2. rewrite length_app. lia.
Qed.

Lemma skip_ws_fixed (s : list ascii) :
  List.length (skip_ws s) = List.length s -> skip_ws s = s.
Proof.
  intros H. destruct (skip_ws_split s) as (ws & E & _).
  rewrite E in H at 2. rewrite length_app in H.
  destruct ws; [now rewrite E at 2 | cbn in H; lia].
Qed.

Lemma skip_ws_stops (s : list ascii) :
  skip_ws s = [] \/ starts_line (skip_ws s) = true.
Proof.
  induction s as [|c s IH]; [now left|].
  cbn [skip_ws]. destruct (isspace c) eqn:Hc; [assumption|].
  right. cbn. now rewrite Hc.
Qed.

Lemma skip_ws_starts_line (t : list ascii) :
  starts_line t = true -> skip_ws t = t.
Proof.
  destruct t as [|c t]; [discriminate|].
  cbn. destruct (isspace c); [discriminate | reflexivity].
Qed.

Lemma skip_ws_app (ws t : list ascii) :
  forallb isspace ws = true -> skip_ws (ws ++ t) = skip_ws t.
Proof.
  induction ws as [|c ws IH]; intros H; [reflexivity|].
  cbn in H. apply andb_prop in H as [Hc Hws].
  cbn. rewrite Hc. now apply IH.
Qed.

Lemma skip_ws_idem (s : list ascii) : skip_ws (skip_ws s) = skip_ws s.
Proof.
  destruct (skip_ws_stops s) as [E|E]; [now rewrite E|].
  now apply skip_ws_starts_line.
Qed.

Lemma scan_line_split (N : nat) :
  forall s m rest, scan_line N s = (m, rest) ->
    s = m ++ rest /\ (List.length m <= N)%nat /\ ~ In NL m
    /\ (List.length m = N \/ rest = [] \/ exists t, rest = NL :: t).
Proof.
  induction N as [|k IH]; intros s m rest H.
  - cbn in H. replace m with (@nil ascii) by (destruct s; congruence).
    replace rest with s by (destruct s; congruence).
    repeat split; auto.
  - destruct s as [|c s].
    + cbn in H. injection H as <- <-. repeat split; auto; cbn; lia.
    + cbn in H. destruct (Ascii.eqb_spec c NL) as [->|Hc].
      * injection H as <- <-. repeat split; auto; cbn; try lia.
        right; right. now exists s.
      * destruct (scan_line k s) as [m' rest'] eqn:E.
        injection H as <- <-.
        destruct (IH _ _ _ E) as (-> & Hlen & Hnl & Hstop).
        repeat split; cbn; try lia.
        -- intros [Hin|Hin]; [now apply Hc | now apply Hnl].
        -- destruct Hstop as [Hs|Hs]; [left; lia | now right].
Qed.

Lemma scan_line_intro (N : nat) :
  forall m rest, (List.length m <= N)%nat -> ~ In NL m ->
    (List.length m = N \/ rest = [] \/ exists t, rest = NL :: t) ->
    scan_line N (m ++ rest) = (m, rest).
Proof.
  induction N as [|k IH]; intros m rest Hlen Hnl Hstop.
  - destruct m; [|cbn in Hlen; lia]. cbn. now destruct rest.
  - destruct m as [|c m].
    + cbn [app]. destruct Hstop as [H|[->|(t & ->)]];
        [discriminate H | reflexivity | reflexivity].
    + cbn [app scan_line]. destruct (Ascii.eqb_spec c NL) as [->|Hc].
      * exfalso. apply Hnl. now left.
      * rewrite IH; [reflexivity | cbn in Hlen; lia | |].
        -- intros Hin. apply Hnl. now right.
        -- destruct Hstop as [H|H]; [left; cbn in H; lia | now right].
Qed.

Lemma fscanf_line_length (N : nat) (f line line1 f1 : list ascii) :
  fscanf_line N f line = (line1, f1) ->
  (List.length f1 <= List.length f)%nat.
Proof.
  unfold fscanf_line. destruct (scan_line N f) as [m rest] eqn:E.
  apply scan_line_split in E as (-> & _).
  destruct m; intros H; injection H as <- <-; rewrite ?length_app; cbn; lia.
Qed.

Lemma fscanf_line_no_progress (N : nat) (f line line1 f1 : list ascii) :
  fscanf_line N f line = (line1, f1) ->
  List.length (skip_ws f1) = List.length f ->
  line1 = line /\ skip_ws f1 = f.
Proof.
  unfold fscanf_line. destruct (scan_line N f) as [m rest] eqn:E.
  apply scan_line_split in E as (-> & _).
  pose proof (skip_ws_length rest) as Hr.
  destruct m as [|c m]; intros H; injection H as <- <-; intros Hlen.
  - split; [reflexivity|]. now apply skip_ws_fixed.
  - rewrite length_app in Hlen. cbn in Hlen. lia.
Qed.

(** ** readline: fuel and divergence *)

Section Readline.

Variable N : nat.

Lemma readline_loop_stuck (f line f1 : list ascii) :
  fscanf_line N f line = (line, f1) -> skip_ws f1 = f ->
  Ascii.eqb (hd NUL line) "#"%char = true ->
  forall fuel, readline_loop fuel N f line = Diverges.
Proof.
  intros Hscan Hskip Hhash fuel.
  induction fuel as [|k IH]; [reflexivity|].
  cbn [readline_loop]. rewrite Hscan, Hhash, Hskip. exact IH.
Qed.

(** More fuel than the length of the stream changes nothing. *)
Lemma readline_loop_fuel :
  forall fuel n f line,
    (List.length f < fuel)%nat -> (List.length f < n)%nat ->
    readline_loop fuel N f line = readline_loop n N f line.
Proof.
  induction fuel as [|k IH]; intros n f line Hk Hn; [lia|].
  destruct n as [|n]; [lia|].
  cbn [readline_loop].
  destruct (fscanf_line N f line) as [line1 f1] eqn:Hscan.
  destruct (Ascii.eqb (hd NUL line1) "#"%char) eqn:Hhash; [|reflexivity].
  pose proof (fscanf_line_length _ _ _ _ _ Hscan) as H1.
  pose proof (skip_ws_length f1) as H2.
  destruct (Nat.eq_dec (List.length (skip_ws f1)) (List.length f)) as [E|E].
  - destruct (fscanf_line_no_progress _ _ _ _ _ Hscan E) as [-> Hf].
    rewrite Hf.
    rewrite (readline_loop_stuck f line f1 Hscan Hf Hhash k).
    now rewrite (readline_loop_stuck f line f1 Hscan Hf Hhash n).
  - apply IH; lia.
Qed.

(** The loop, unfolded once. *)
Lemma readline_unfold (f line : list ascii) :
  readline N f line =
  let (line1, f1) := fscanf_line N f line in
  if Ascii.eqb (hd NUL line1) "#"%char
  then readline N (skip_ws f1) line1
  else Returns (line1, skip_ws f1).
Proof.
  unfold readline at 1. cbn [readline_loop].
  destruct (fscanf_line N f line) as [line1 f1] eqn:Hscan.
  destruct (Ascii.eqb (hd NUL line1) "#"%char) eqn:Hhash; [|reflexivity].
  pose proof (fscanf_line_length _ _ _ _ _ Hscan) as H1.
  pose proof (skip_ws_length f1) as H2.
  destruct (Nat.eq_dec (List.length (skip_ws f1)) (List.length f)) as [E|E].
  - destruct (fscanf_line_no_progress _ _ _ _ _ Hscan E) as [-> Hf].
    rewrite Hf. unfold readline.
    rewrite (readline_loop_stuck f line f1 Hscan Hf Hhash).
    now rewrite (readline_loop_stuck f line f1 Hscan Hf Hhash).
  - unfold readline. apply readline_loop_fuel; lia.
Qed.

(** Whatever the fuel, a result of the loop is the result of [readline]:
    [Diverges] is only returned for a loop that does not end. *)
Lemma readline_loop_returns :
  forall fuel f line x,
    readline_loop fuel N f line = Returns x -> readline N f line = Returns x.
Proof.
  induction fuel as [|k IH]; intros f line x H; [discriminate|].
  rewrite readline_unfold. cbn [readline_loop] in H.
  destruct (fscanf_line N f line) as [line1 f1].
  destruct (Ascii.eqb (hd NUL line1) "#"%char); [now apply IH | exact H].
Qed.

Lemma readline_diverges_forever (f line : list ascii) :
  readline N f line = Diverges ->
  forall fuel, readline_loop fuel N f line = Diverges.
Proof.
  intros H fuel.
  destruct (readline_loop fuel N f line) as [|x] eqn:E; [reflexivity|].
  apply readline_loop_returns in E. congruence.
Qed.

(** Induction over the runs of the loop of a call that returns. *)
Lemma readline_ind (P : list ascii -> list ascii -> list ascii * list ascii -> Prop) :
  (forall f line line1 f1,
      fscanf_line N f line = (line1, f1) ->
      Ascii.eqb (hd NUL line1) "#"%char = false ->
      P f line (line1, skip_ws f1)) ->
  (forall f line line1 f1 x,
      fscanf_line N f line = (line1, f1) ->
      Ascii.eqb (hd NUL line1) "#"%char = true ->
      readline N (skip_ws f1) line1 = Returns x ->
      P (skip_ws f1) line1 x -> P f line x) ->
  forall f line x, readline N f line = Returns x -> P f line x.
Proof.
  intros Hstop Hloop f line x H.
  unfold readline in H.
  remember (S (List.length f)) as fuel eqn:Hfuel. clear Hfuel.
  revert f line H.
  induction fuel as [|k IH]; intros f line H; [discriminate|].
  cbn [readline_loop] in H.
  destruct (fscanf_line N f line) as [line1 f1] eqn:Hscan.
  destruct (Ascii.eqb (hd NUL line1) "#"%char) eqn:Hhash.
  - eapply Hloop; eauto. now apply readline_loop_returns with k.
  - injection H as <-. now apply Hstop.
Qed.

Lemma readline_suffix (f line l f' : list ascii) :
  readline N f line = Returns (l, f') ->
  (exists pre, f = pre ++ f') /\ (f' = [] \/ starts_line f' = true).
Proof.
  intros H.
  refine (readline_ind
            (fun f line x => (exists pre, f = pre ++ snd x)
                             /\ (snd x = [] \/ starts_line (snd x) = true))
            _ _ f line (l, f') H).
  - intros f0 line0 line1 f1 Hscan _. cbn [snd]. split; [|apply skip_ws_stops].
    unfold fscanf_line in Hscan.
    destruct (scan_line N f0) as [m rest] eqn:E.
    apply scan_line_split in E as (-> & _).
    destruct (skip_ws_split f1) as (ws & Ews & _).
    destruct m; injection Hscan as <- <-.
    + now exists ws.
    + exists ((a :: m) ++ ws). now rewrite <- app_assoc, <- Ews.
  - intros f0 line0 line1 f1 x Hscan _ _ [(pre & Epre) Hst]. split; [|exact Hst].
    unfold fscanf_line in Hscan.
    destruct (scan_line N f0) as [m rest] eqn:E.
    apply scan_line_split in E as (-> & _).
    destruct (skip_ws_split f1) as (ws & Ews & _).
    destruct m; injection Hscan as <- <-.
    + exists (ws ++ pre). now rewrite <- app_assoc, <- Epre.
    + exists ((a :: m) ++ ws ++ pre).
      now rewrite <- !app_assoc, <- Epre, <- Ews.
Qed.

End Readline.

(** ** The decimal printer *)

Lemma digits_of_isdigit (fuel : nat) :
  forall n acc, Forall (fun c => isdigit c = true) acc ->
    Forall (fun c => isdigit c = true) (digits_of fuel n acc).
Proof.
  induction fuel as [|k IH]; intros n acc Hacc; simpl; [assumption|].
  assert (Hd : isdigit (chr (48 + n mod 10)) = true).
  { apply isdigit_chr. apply Z.mod_pos_bound. lia. }
  destruct (n / 10 =? 0).
  - constructor; assumption.
  - apply IH. constructor; assumption.
Qed.

Lemma decimal_isdigit (n : Z) : Forall (fun c => isdigit c = true) (decimal n).
Proof.
  unfold decimal. apply digits_of_isdigit. constructor.
Qed.

Lemma count_nl_app (l1 l2 : list ascii) :
  count_nl (l1 ++ l2) = (count_nl l1 + count_nl l2)%nat.
Proof.
  unfold count_nl. apply count_occ_app.
Qed.

Lemma count_nl_digits (l : list ascii) :
  Forall (fun c => isdigit c = true) l -> count_nl l = 0%nat.
Proof.
  intros H. unfold count_nl. apply count_occ_not_In.
  intros Hin. rewrite Forall_forall in H.
  apply (isdigit_not_NL NL (H _ Hin)). reflexivity.
Qed.

Lemma count_nl_fmt_d (n : Z) : count_nl (fmt_d n) = 0%nat.
Proof.
  unfold fmt_d. destruct (n <? 0).
  - change ("-"%char :: decimal (- n)) with (["-"%char] ++ decimal (- n)).
    rewrite count_nl_app, (count_nl_digits (decimal (- n))) by apply decimal_isdigit.
    reflexivity.
  - apply count_nl_digits, decimal_isdigit.
Qed.

Lemma count_nl_fprintf_pixel (p : pixel_t) : count_nl (fprintf_pixel p) = 0%nat.
Proof.
  unfold fprintf_pixel.
  rewrite !count_nl_app, !count_nl_fmt_d. reflexivity.
Qed.

(** ** Reading back what [%d] printed *)

Lemma digits_of_app (fuel : nat) :
  forall n acc, digits_of fuel n acc = digits_of fuel n [] ++ acc.
Proof.
  induction fuel as [|k IH]; intros n acc; [reflexivity|].
  cbn [digits_of]. destruct (n / 10 =? 0); [reflexivity|].
  rewrite (IH _ (_ :: acc)), (IH _ [_]), <- app_assoc. reflexivity.
Qed.

Lemma digits_of_length (fuel : nat) :
  forall n acc,
    (List.length (digits_of fuel n acc) <= fuel + List.length acc)%nat.
Proof.
  induction fuel as [|k IH]; intros n acc; [cbn; lia|].
  cbn [digits_of]. destruct (n / 10 =? 0); [cbn [List.length]; lia|].
  specialize (IH (n / 10) (chr (48 + n mod 10) :: acc)).
  cbn [List.length] in IH. lia.
Qed.

Lemma digits_of_nonempty (fuel : nat) :
  forall n acc, digits_of (S fuel) n acc <> [].
Proof.
  intros n acc. cbn [digits_of]. destruct (n / 10 =? 0); [discriminate|].
  rewrite digits_of_app. intros H. apply app_eq_nil in H as [_ H].
  discriminate H.
Qed.

Lemma value_of_digits_of (fuel : nat) :
  forall n acc, 0 <= n < 2 ^ Z.of_nat fuel ->
    value_of (digits_of fuel n acc) 0 = value_of acc n.
Proof.
  induction fuel as [|k IH]; intros n acc Hn.
  - cbn in Hn. cbn. replace n with 0 by lia. reflexivity.
  - cbn [digits_of].
    pose proof (Z.div_mod n 10 ltac:(lia)) as Hdm.
    pose proof (Z.mod_pos_bound n 10 ltac:(lia)) as Hmod.
    assert (Hd : code (chr (48 + n mod 10)) - 48 = n mod 10)
      by (rewrite code_chr; lia).
    destruct (Z.eqb_spec (n / 10) 0) as [E|E].
    + cbn [value_of]. rewrite Hd. f_equal. lia.
    + rewrite IH.
      * cbn [value_of]. rewrite Hd. f_equal. lia.
      * rewrite Nat2Z.inj_succ, Z.pow_succ_r in Hn by lia.
        split; [apply Z.div_pos; lia|].
        apply Z.div_lt_upper_bound; lia.
Qed.

Lemma value_of_decimal (n : Z) : 0 <= n -> value_of (decimal n) 0 = n.
Proof.
  intros Hn. unfold decimal. rewrite value_of_digits_of; [reflexivity|].
  split; [exact Hn|].
  rewrite Nat2Z.inj_succ, Z2Nat.id by apply Z.log2_nonneg.
  destruct (Z.eq_dec n 0) as [->|Hz]; [reflexivity|].
  apply Z.log2_spec. lia.
Qed.

Lemma decimal_length (n : Z) :
  0 <= n < 2 ^ 32 -> (List.length (decimal n) <= 32)%nat.
Proof.
  intros Hn. unfold decimal.
  pose proof (digits_of_length (S (Z.to_nat (Z.log2 n))) n []) as H.
  cbn [List.length] in H.
  assert (Z.log2 n < 32).
  { destruct (Z.eq_dec n 0) as [->|Hz]; [reflexivity|].
    apply Z.log2_lt_pow2; lia. }
  pose proof (Z.log2_nonneg n). lia.
Qed.

Lemma decimal_cons (n : Z) :
  exists c l, decimal n = c :: l /\ isdigit c = true
              /\ Forall (fun x => isdigit x = true) l.
Proof.
  pose proof (decimal_isdigit n) as H.
  destruct (decimal n) as [|c l] eqn:E.
  - exfalso. revert E. unfold decimal. apply digits_of_nonempty.
  - exists c, l. inversion H; subst. auto.
Qed.

Lemma scan_digits_app (l : list ascii) :
  forall rest a,
    Forall (fun x => isdigit x = true) l -> no_digit_ahead rest = true ->
    scan_digits (l ++ rest) a = (value_of l a, rest).
Proof.
  induction l as [|c l IH]; intros rest a Hl Hrest.
  - cbn. destruct rest as [|x rest]; [reflexivity|].
    cbn in Hrest |- *. now destruct (isdigit x).
  - inversion Hl as [|? ? Hc Hl']; subst.
    cbn. rewrite Hc. now apply IH.
Qed.

Lemma isdigit_not_sign (c : ascii) :
  isdigit c = true ->
  Ascii.eqb c "-"%char || Ascii.eqb c "+"%char = false.
Proof.
  intros H.
  destruct (Ascii.eqb_spec c "-"%char) as [->|_]; [discriminate H|].
  destruct (Ascii.eqb_spec c "+"%char) as [->|_]; [discriminate H|].
  reflexivity.
Qed.

(** [%u] reads back a number printed by [%d], white space before it
    skipped, provided no digit follows. *)
Lemma scan_u_decimal (ws rest : list ascii) (v : Z) :
  forallb isspace ws = true -> 0 <= v < 2 ^ 32 ->
  no_digit_ahead rest = true ->
  scan_u (ws ++ decimal v ++ rest) = Converted v rest.
Proof.
  intros Hws Hv Hrest. unfold scan_u.
  destruct (decimal_cons v) as (c & l & E & Hc & Hl).
  rewrite skip_ws_app by exact Hws.
  rewrite skip_ws_starts_line
    by (rewrite E; cbn; now rewrite (isdigit_not_space c Hc)).
  pose proof (scan_digits_app (decimal v) rest 0 (decimal_isdigit v) Hrest) as Hs.
  rewrite value_of_decimal in Hs by lia.
  rewrite E in Hs |- *. cbn [app] in Hs |- *.
  pose proof (isdigit_not_sign c Hc) as Hsign.
  apply orb_false_elim in Hsign as [Hm Hp]. rewrite Hm, Hp. cbn [orb].
  rewrite Hc, Hs. f_equal.
  unfold strtoul_value, to_uint, ULONG_MAX.
  destruct (Z.gtb_spec v 18446744073709551615); [lia|].
  apply Z.mod_small. lia.
Qed.

(** ** The text writer: where the newlines go *)

Lemma to_int_small (z : Z) : - 2 ^ 31 <= z < 2 ^ 31 -> to_int z = z.
Proof.
  intros H. unfold to_int. rewrite Z.mod_small by lia. lia.
Qed.

Lemma to_int_range (z : Z) : - 2 ^ 31 <= to_int z < 2 ^ 31.
Proof.
  unfold to_int. pose proof (Z.mod_pos_bound (z + 2 ^ 31) (2 ^ 32)). lia.
Qed.

Lemma write_ascii_text_block (pix : list pixel_t) (n : nat) :
  forall i, Z.of_nat i + Z.of_nat n < 2 ^ 31 ->
    write_ascii n i (Z.of_nat i) pix = text_block pix i n.
Proof.
  induction n as [|n IH]; intros i Hi; [reflexivity|].
  cbn [write_ascii text_block seq flat_map].
  rewrite to_int_small by lia.
  replace (Z.of_nat i + 1) with (Z.of_nat (S i)) by lia.
  rewrite Z.rem_mod_nonneg by lia.
  rewrite IH by lia. unfold text_block.
  rewrite <- app_assoc. reflexivity.
Qed.

Lemma count_nl_text_block (pix : list pixel_t) (n : nat) :
  forall i, Z.of_nat (count_nl (text_block pix i n))
            = Z.of_nat (i + n) / 5 - Z.of_nat i / 5.
Proof.
  induction n as [|n IH]; intros i.
  - cbn. rewrite Nat.add_0_r. lia.
  - unfold text_block in *. cbn [seq flat_map].
    rewrite !count_nl_app, count_nl_fprintf_pixel, !Nat2Z.inj_add, IH.
    replace (i + S n)%nat with (S i + n)%nat by lia.
    assert (Hstep : Z.of_nat (count_nl (if Z.of_nat (S i) mod 5 =? 0 then [NL] else []))
                    = Z.of_nat (S i) / 5 - Z.of_nat i / 5).
    { replace (Z.of_nat (S i)) with (Z.of_nat i + 1) by lia.
      pose proof (Z.div_mod (Z.of_nat i) 5 ltac:(lia)) as E1.
      pose proof (Z.mod_pos_bound (Z.of_nat i) 5 ltac:(lia)) as B1.
      pose proof (Z.div_mod (Z.of_nat i + 1) 5 ltac:(lia)) as E2.
      pose proof (Z.mod_pos_bound (Z.of_nat i + 1) 5 ltac:(lia)) as B2.
      destruct (Z.eqb_spec ((Z.of_nat i + 1) mod 5) 0) as [E|E];
        [change (count_nl [NL]) with 1%nat | change (count_nl []) with 0%nat];
        lia. }
    rewrite Hstep.
    replace (Z.of_nat i + Z.of_nat (S n)) with (Z.of_nat (S i + n)) by lia.
    lia.
Qed.

(** ** The binary file of a 1x1 image *)

(** C5, as stated: storing the 1x1 image with pixel (255,0,128) in the
    binary variant would give the header text ["P6\n1 1\n255\n"] followed
    by 0xFF, 0x00, 0x80, 15 bytes in all.  The bytes are the ones
    announced, but there are 14 of them, so the statement is false. *)
Lemma C5_store_1x1_not_15_bytes :
  ~ (exists out, write_ppm true img_1x1 PPM_RAW = (true, Some out)
                 /\ out = bytes_1x1 /\ List.length out = 15%nat).
Proof.
  intros (out & _ & -> & Hlen). vm_compute in Hlen. discriminate Hlen.
Qed.

(** C5, amended: storing the 1x1 image with pixel (255,0,128) in the binary
    variant produces exactly the header text ["P6\n1 1\n255\n"] followed by
    the three bytes 0xFF, 0x00, 0x80 and nothing else: 14 bytes (11 of
    header, 3 of pixel data). *)
Theorem C5_store_1x1_bytes :
  write_ppm true img_1x1 PPM_RAW = (true, Some bytes_1x1)
  /\ List.length bytes_1x1 = 14%nat
  /\ map code (skipn 11 bytes_1x1) = [255; 0; 128].
Proof.
  repeat split; vm_compute; reflexivity.
Qed.

(** ** Newlines of the text variant *)

(** C7: in the text variant the pixel block is the flattened pixel
    sequence with a newline after every 5th pixel, counted over the whole
    write: the block only depends on the flat buffer and on the number of
    pixels, not on how that number splits into width and height.  It holds
    [n / 5] newlines for [n] pixels; for 12 pixels these are exactly two,
    after the 5th and the 10th pixel, and none after the 12th. *)
Theorem C7_text_newline_cadence (img : img_t) :
  let n := Z.to_nat (to_int (width img * height img)) in
  let block := text_block (pix1d img) 0 n in
  let px i := fprintf_pixel (nth i (pix1d img) pixel0) in
  write_ppm true img PPM_ASCII
    = (true, Some (fprintf_header (str "P3") (width img) (height img) ++ block))
  /\ Z.of_nat (count_nl block) = Z.of_nat n / 5
  /\ (forall img', pix1d img' = pix1d img ->
        width img' * height img' = width img * height img ->
        write_ppm true img' PPM_ASCII
          = (true, Some (fprintf_header (str "P3") (width img') (height img')
                           ++ block)))
  /\ (n = 12%nat ->
      block = px 0%nat ++ px 1%nat ++ px 2%nat ++ px 3%nat ++ px 4%nat ++ [NL]
                ++ px 5%nat ++ px 6%nat ++ px 7%nat ++ px 8%nat ++ px 9%nat ++ [NL]
                ++ px 10%nat ++ px 11%nat
      /\ count_nl block = 2%nat).
Proof.
  intros n block px.
  assert (Hw : forall im, write_ppm true im PPM_ASCII
             = (true, Some (fprintf_header (str "P3") (width im) (height im)
                 ++ text_block (pix1d im) 0
                      (Z.to_nat (to_int (width im * height im)))))).
  { intros im. unfold write_ppm. cbn [negb].
    rewrite (write_ascii_text_block (pix1d im) _ 0); [reflexivity|].
    pose proof (to_int_range (width im * height im)). lia. }
  split; [apply Hw|]. split.
  { unfold block. rewrite count_nl_text_block. cbn. lia. }
  split.
  { intros img' Hpix Hdim. rewrite Hw, Hpix, Hdim. reflexivity. }
  intros Hn. subst block. rewrite Hn. split.
  - unfold text_block. cbn [seq flat_map].
    repeat (match goal with
            | |- context [Z.of_nat ?k mod 5 =? 0] =>
                let v := eval vm_compute in (Z.of_nat k mod 5 =? 0) in
                change (Z.of_nat k mod 5 =? 0) with v
            end).
    cbv iota. rewrite <- ?app_assoc, ?app_nil_l, ?app_nil_r.
    reflexivity.
  - apply Nat2Z.inj. rewrite count_nl_text_block. reflexivity.
Qed.

Lemma C7_text_newline_cadence_witness :
  count_nl (text_block (pix1d img_4x3) 0 12) = 2%nat.
Proof.
  apply (C7_text_newline_cadence img_4x3). reflexivity.
Defined.

(** ** Outcomes of load_header and load_ppm *)

Lemma bytes_eqb_eq (a : list ascii) :
  forall b', bytes_eqb a b' = true <-> a = b'.
Proof.
  induction a as [|x a IH]; intros [|y b']; cbn; split; intros H;
    try reflexivity; try discriminate.
  - apply andb_prop in H as [H1 H2]. apply Ascii.eqb_eq in H1.
    apply IH in H2. now subst.
  - injection H as -> ->. rewrite Ascii.eqb_refl. now apply IH.
Qed.

Lemma strcmp_eq_P3 (line : list ascii) :
  strcmp_eq (str "P3") line = true -> cstr line = str "P3".
Proof.
  unfold strcmp_eq. intros H. apply bytes_eqb_eq in H. now rewrite <- H.
Qed.

Lemma strcmp_eq_P6 (line : list ascii) :
  strcmp_eq (str "P6") line = true -> cstr line = str "P6".
Proof.
  unfold strcmp_eq. intros H. apply bytes_eqb_eq in H. now rewrite <- H.
Qed.

Lemma load_header_outcomes (file : option (list ascii)) (junk : list ascii) :
  load_header file junk = Diverges
  \/ (exists h, load_header file junk = Returns (Some h, []))
  \/ load_header file junk = Returns (None, [])
  \/ load_header file junk = Returns (None, msg_format)
  \/ load_header file junk = Returns (None, msg_range).
Proof.
  unfold load_header. destruct file as [content|]; [|auto].
  destruct (readline MAX_LENGTH content junk) as [|[l1 f1]]; cbn [bind]; [auto|].
  destruct (if strcmp_eq (str "P3") l1 then Some PPM_ASCII
            else if strcmp_eq (str "P6") l1 then Some PPM_RAW else None);
    [|auto 6].
  destruct (readline MAX_LENGTH f1 l1) as [|[l2 f2]]; cbn [bind]; [auto|].
  destruct (sscanf_u_u l2 0 0) as [[matches w] h].
  destruct (negb (matches =? 2)); [auto|].
  destruct (readline MAX_LENGTH f2 l2) as [|[l3 f3]]; cbn [bind]; [auto|].
  destruct (sscanf_u l3 0) as [matches' m].
  destruct (negb (matches' =? 1)); [auto|].
  destruct (m >? 255); [auto 6|].
  right; left. eexists. reflexivity.
Qed.

(** ** How failures are reported *)

(** C3, as stated: every failure would be surfaced as an outcome that
    identifies the error of the taxonomy.  Three sources failing for three
    different reasons give the same outcome, [NULL] and nothing on
    [stderr]: no function of the outcome can name the error. *)
Lemma C3_failures_not_told_apart :
  ~ (exists identify : outcome (option img_t * list ascii) -> ppm_error,
        identify (load_ppm (world_of src_bad_dims [] (fun _ => pixel0)))
          = MalformedHeader
        /\ identify (load_ppm (world_of src_bad_token [] (fun _ => pixel0)))
          = MalformedPixelData
        /\ identify (load_ppm (world_of src_bad_range [] (fun _ => pixel0)))
          = ComponentOutOfRange).
Proof.
  intros (identify & H1 & H2 & H3).
  change (load_ppm (world_of src_bad_dims [] (fun _ => pixel0)))
    with (@Returns (option img_t * list ascii) (None, [])) in H1.
  change (load_ppm (world_of src_bad_token [] (fun _ => pixel0)))
    with (@Returns (option img_t * list ascii) (None, [])) in H2.
  rewrite H1 in H2. discriminate H2.
Qed.

(** ** The dimensions line *)

Lemma scan_digits_rest (s : list ascii) :
  forall acc, snd (scan_digits s acc) = drop_digits s.
Proof.
  induction s as [|c s IH]; intros acc; [reflexivity|].
  cbn. destruct (isdigit c); [apply IH | reflexivity].
Qed.

(** [%u] converts exactly when the input, white space skipped, begins
    with a number. *)
Lemma scan_u_number_prefix (s : list ascii) :
  match scan_u s with
  | Converted _ rest => number_prefix (skip_ws s) = Some rest
  | _ => number_prefix (skip_ws s) = None
  end.
Proof.
  unfold scan_u, number_prefix.
  destruct (skip_ws s) as [|c s1]; [reflexivity|].
  destruct (Ascii.eqb c "-"%char) eqn:Em; cbn [orb].
  - destruct s1 as [|d s2]; [reflexivity|].
    destruct (isdigit d) eqn:Ed; [|reflexivity].
    pose proof (scan_digits_rest (d :: s2) 0) as Hr.
    destruct (scan_digits (d :: s2) 0) as [v rest]. cbn in Hr. now rewrite Hr.
  - destruct (Ascii.eqb c "+"%char) eqn:Ep.
    + destruct s1 as [|d s2]; [reflexivity|].
      destruct (isdigit d) eqn:Ed; [|reflexivity].
      pose proof (scan_digits_rest (d :: s2) 0) as Hr.
      destruct (scan_digits (d :: s2) 0) as [v rest]. cbn in Hr. now rewrite Hr.
    + destruct (isdigit c) eqn:Ed; [|reflexivity].
      pose proof (scan_digits_rest (c :: s1) 0) as Hr.
      destruct (scan_digits (c :: s1) 0) as [v rest]. cbn in Hr. now rewrite Hr.
Qed.

(** [sscanf(line, "%u %u", ...)] returns 2 exactly for the lines that
    begin with two numbers. *)
Lemma sscanf_u_u_two (line : list ascii) (w h : Z) :
  fst (fst (sscanf_u_u line w h)) = 2
  <-> begins_with_two_numbers (cstr line) = true.
Proof.
  unfold sscanf_u_u, begins_with_two_numbers.
  pose proof (scan_u_number_prefix (cstr line)) as H1.
  destruct (scan_u (cstr line)) as [| |w' s1]; rewrite H1; cbn;
    try (split; [intros H; discriminate H | discriminate]).
  pose proof (scan_u_number_prefix (skip_ws s1)) as H2.
  rewrite skip_ws_idem in H2.
  destruct (scan_u (skip_ws s1)) as [| |h' s2]; rewrite H2; cbn;
    try (split; [intros H; discriminate H | discriminate]).
  split; reflexivity.
Qed.

(** C4, as stated: a dimensions line that is not exactly two integers
    would make header parsing fail.  The line ["2 3 4"] has three tokens,
    and the header is accepted with width 2 and height 3: what follows the
    second number is not looked at. *)
Lemma C4_third_token_accepted :
  readline MAX_LENGTH src_three_dims [] 
    = Returns (str "P6", str "2 3 4" ++ [NL] ++ str "255" ++ [NL])
  /\ readline MAX_LENGTH (str "2 3 4" ++ [NL] ++ str "255" ++ [NL]) (str "P6")
    = Returns (str "2 3 4", str "255" ++ [NL])
  /\ two_integers_exactly (str "2 3 4") = false
  /\ load_header (Some src_three_dims) []
    = Returns (Some (mkheader PPM_RAW 2 3 255 13), []).
Proof.
  repeat split; reflexivity.
Qed.

(** ** Pixel data: the range check *)

Lemma store_length (i : nat) (p : pixel_t) :
  forall pix, List.length (store i p pix) = List.length pix.
Proof.
  induction i as [|i IH]; intros [|q pix]; cbn; auto.
Qed.

Lemma store_nth_same (p d : pixel_t) :
  forall i pix, (i < List.length pix)%nat -> nth i (store i p pix) d = p.
Proof.
  induction i as [|i IH]; intros [|q pix] H; cbn in *; try lia; auto.
  apply IH. lia.
Qed.

Lemma store_nth_other (p d : pixel_t) :
  forall i j pix, i <> j -> nth j (store i p pix) d = nth j pix d.
Proof.
  induction i as [|i IH]; intros [|j] [|q pix] H; cbn; auto; try lia.
Qed.

Lemma load_ascii_exceeds (maxv : Z) :
  forall k n i f pix ts,
    (k <= n)%nat -> scan_triples k f = Some ts ->
    existsb (exceeds maxv) ts = true ->
    load_ascii n i maxv f pix = None.
Proof.
  induction k as [|k IH]; intros n i f pix ts Hk Hts Hex.
  - injection Hts as <-. discriminate Hex.
  - destruct n as [|n]; [lia|]. cbn in Hts |- *.
    destruct (fscanf_u_u_u f) as [[matches [[r' g'] b']] f'].
    destruct (matches =? 3); [|discriminate]. cbn [negb].
    destruct (scan_triples k f') as [ts'|] eqn:E; [|discriminate].
    injection Hts as <-. cbn [existsb exceeds] in Hex.
    destruct ((r' >? maxv) || (g' >? maxv) || (b' >? maxv)); [reflexivity|].
    cbn [orb] in Hex. eapply IH; eauto. lia.
Qed.

Lemma load_ascii_within (maxv : Z) :
  forall n i f pix ts,
    scan_triples n f = Some ts ->
    existsb (exceeds maxv) ts = false ->
    exists pix', load_ascii n i maxv f pix = Some pix'.
Proof.
  induction n as [|n IH]; intros i f pix ts Hts Hex.
  - eexists. reflexivity.
  - cbn in Hts |- *.
    destruct (fscanf_u_u_u f) as [[matches [[r' g'] b']] f'].
    destruct (matches =? 3); [|discriminate]. cbn [negb].
    destruct (scan_triples n f') as [ts'|] eqn:E; [|discriminate].
    injection Hts as <-. cbn [existsb exceeds] in Hex.
    apply orb_false_elim in Hex as [-> Hex].
    eapply IH; eauto.
Qed.

Lemma load_raw_length :
  forall n i f pix, List.length (load_raw n i f pix) = List.length pix.
Proof.
  induction n as [|n IH]; intros i f pix; [reflexivity|].
  cbn [load_raw].
  destruct (fread1 f _) as [r' f1], (fread1 f1 _) as [g' f2],
           (fread1 f2 _) as [b' f3].
  rewrite IH. apply store_length.
Qed.

Lemma load_raw_before :
  forall n i f pix j, (j < i)%nat ->
    nth j (load_raw n i f pix) pixel0 = nth j pix pixel0.
Proof.
  induction n as [|n IH]; intros i f pix j Hj; [reflexivity|].
  cbn [load_raw].
  destruct (fread1 f _) as [r' f1], (fread1 f1 _) as [g' f2],
           (fread1 f2 _) as [b' f3].
  rewrite IH by lia. apply store_nth_other. lia.
Qed.

(** Pixel [i + k] of the result holds bytes [3k], [3k+1], [3k+2] of the
    stream, untouched. *)
Lemma load_raw_bytes :
  forall n i f pix k,
    (k < n)%nat -> (i + k < List.length pix)%nat ->
    (3 * k + 2 < List.length f)%nat ->
    nth (i + k) (load_raw n i f pix) pixel0
    = mkpixel (code (nth (3 * k) f NUL)) (code (nth (3 * k + 1) f NUL))
              (code (nth (3 * k + 2) f NUL)).
Proof.
  induction n as [|n IH]; intros i f pix k Hk Hi Hf; [lia|].
  destruct f as [|c0 [|c1 [|c2 f3]]]; cbn in Hf; try lia.
  cbn [load_raw fread1].
  destruct k as [|k].
  - rewrite Nat.add_0_r, load_raw_before by lia.
    rewrite store_nth_same by lia. reflexivity.
  - replace (i + S k)%nat with (S i + k)%nat by lia.
    rewrite IH; [| lia | rewrite store_length; lia | lia].
    replace (3 * S k)%nat with (S (S (S (3 * k)))) by lia.
    reflexivity.
Qed.

(** C6: in a text source every decoded component is compared with the
    maximum of the header: as soon as one of the triples read exceeds it,
    load fails ([NULL]), and when none does the load succeeds.  In a binary
    source nothing is compared: the load succeeds whatever the bytes and
    the maximum are, and each pixel holds the three raw bytes. *)
Theorem C6_range_check_in_text_only
  (w : world) (content : list ascii) (hdr : ppm_header_t) (img : img_t) :
  file w = Some content ->
  load_header (Some content) (stack_junk w) = Returns (Some hdr, []) ->
  alloc_img w (to_int (hwidth hdr)) (to_int (hheight hdr)) = Some img ->
  let f := skipn (Z.to_nat (data_offset hdr)) content in
  let n := Z.to_nat (to_uint (hwidth hdr * hheight hdr)) in
  (type hdr = PPM_ASCII ->
     (forall k ts, (k <= n)%nat -> scan_triples k f = Some ts ->
        existsb (exceeds (maxval hdr)) ts = true ->
        load_ppm w = Returns (None, []))
     /\ (forall ts, scan_triples n f = Some ts ->
        existsb (exceeds (maxval hdr)) ts = false ->
        exists pix,
          load_ppm w = Returns (Some (mkimg (width img) (height img) pix), [])))
  /\ (type hdr = PPM_RAW ->
      exists pix,
        load_ppm w = Returns (Some (mkimg (width img) (height img) pix), [])
        /\ forall j, (j < n)%nat -> (j < List.length (pix1d img))%nat ->
             (3 * j + 2 < List.length f)%nat ->
             nth j pix pixel0
             = mkpixel (code (nth (3 * j) f NUL)) (code (nth (3 * j + 1) f NUL))
                       (code (nth (3 * j + 2) f NUL))).
Proof.
  intros Hfile Hhdr Halloc f n.
  assert (Hload : load_ppm w =
            match type hdr with
            | PPM_ASCII =>
                match load_ascii n 0 (maxval hdr) f (pix1d img) with
                | None => Returns (None, [])
                | Some pix => Returns (Some (mkimg (width img) (height img) pix), [])
                end
            | PPM_RAW =>
                Returns (Some (mkimg (width img) (height img)
                                 (load_raw n 0 f (pix1d img))), [])
            end).
  { unfold load_ppm. rewrite Hfile, Hhdr. cbn [bind]. rewrite Halloc.
    reflexivity. }
  split; intros Hty; rewrite Hload, Hty.
  - split.
    + intros k ts Hk Hts Hex.
      now rewrite (load_ascii_exceeds _ k n 0%nat f (pix1d img) ts Hk Hts Hex).
    + intros ts Hts Hex.
      destruct (load_ascii_within _ n 0%nat f (pix1d img) ts Hts Hex) as (pix & ->).
      now exists pix.
  - eexists. split; [reflexivity|].
    intros j Hj Hlen Hf. apply (load_raw_bytes n 0 f (pix1d img) j); assumption.
Qed.

Lemma C6_range_check_in_text_only_witness :
  load_ppm (world_of src_bad_range [] (fun _ => pixel0)) = Returns (None, []).
Proof.
  refine (proj1 (proj1 (C6_range_check_in_text_only
            (world_of src_bad_range [] (fun _ => pixel0)) src_bad_range
            (mkheader PPM_ASCII 1 1 100 11) (mkimg 1 1 [pixel0])
            eq_refl eq_refl eq_refl) eq_refl)
          1%nat [(1, 2, 101)] _ eq_refl eq_refl).
  vm_compute. lia.
Defined.

(** ** Binary data shorter than announced *)

(** C1, the code at a failing input: the file announces a 1x1 binary image
    and holds two bytes of pixel data instead of three.  [load_ppm] returns
    an image, not [NULL]: the two bytes read, and for the blue component
    whatever the fresh buffer held. *)
Lemma C1_truncated_binary_is_loaded (junk : list ascii) (heap : nat -> pixel_t) :
  load_ppm (world_of src_truncated junk heap)
  = Returns (Some (mkimg 1 1 [mkpixel 97 98 (b (heap 0%nat))]), []).
Proof.
  reflexivity.
Qed.

(** ** Comment lines in the header *)

Lemma starts_line_nonempty (t : list ascii) : starts_line t = true -> t <> [].
Proof.
  destruct t; [discriminate | discriminate].
Qed.

Lemma starts_line_replace (u t g : list ascii) :
  starts_line (u ++ t) = true -> starts_line g = true ->
  starts_line (u ++ g) = true.
Proof.
  destruct u; [intros _ H; exact H | intros H _; exact H].
Qed.

Lemma starts_line_suffix (s u t : list ascii) :
  s = [] \/ starts_line s = true -> s = u ++ t -> starts_line t = true ->
  starts_line s = true.
Proof.
  intros [->|H] E Ht; [|exact H].
  apply starts_line_nonempty in Ht. destruct u, t; try discriminate; congruence.
Qed.

Section Lines.

Variable N : nat.
Hypothesis N_pos : (0 < N)%nat.

(** One run of the loop only depends on what it consumes, as long as a
    line begins right after. *)
Lemma fscanf_line_local (f line line1 f1 : list ascii) :
  fscanf_line N f line = (line1, f1) ->
  starts_line (skip_ws f1) = true ->
  exists pre0, f = pre0 ++ skip_ws f1
    /\ forall g, starts_line g = true ->
         exists g1, fscanf_line N (pre0 ++ g) line = (line1, g1)
                    /\ skip_ws g1 = g.
Proof.
  unfold fscanf_line. intros Hscan Hst.
  destruct (scan_line N f) as [m rest] eqn:E.
  apply scan_line_split in E as (-> & Hlen & Hnl & Hstop).
  assert (Hf1 : f1 = rest) by (destruct m; cbn in Hscan; congruence).
  subst f1.
  destruct (skip_ws_split rest) as (ws & Ews & Hws).
  assert (Hstop' : forall g, List.length m = N \/ ws ++ g = []
                             \/ exists t, ws ++ g = NL :: t).
  { intros g. destruct Hstop as [H|[H|(t & H)]]; [now left | |].
    - rewrite H in Hst. discriminate Hst.
    - right; right. destruct ws as [|c ws].
      + cbn in Ews. rewrite <- Ews, H in Hst. discriminate Hst.
      + rewrite H in Ews. injection Ews as <- _. now eexists. }
  exists (m ++ ws). split.
  { rewrite <- app_assoc. now rewrite <- Ews. }
  intros g Hg. exists (ws ++ g).
  rewrite <- app_assoc, (scan_line_intro N m (ws ++ g) Hlen Hnl (Hstop' g)).
  split.
  - destruct m; cbn in Hscan |- *; congruence.
  - rewrite skip_ws_app by exact Hws. now apply skip_ws_starts_line.
Qed.

(** A call of [readline] only depends on what it consumes, as long as a
    line begins right after. *)
Lemma readline_local (f line l f' : list ascii) :
  readline N f line = Returns (l, f') ->
  starts_line f' = true ->
  exists pre, f = pre ++ f'
    /\ forall g, starts_line g = true ->
         readline N (pre ++ g) line = Returns (l, g).
Proof.
  intros H.
  refine (readline_ind N
            (fun f line x =>
               starts_line (snd x) = true ->
               exists pre, f = pre ++ snd x
                 /\ forall g, starts_line g = true ->
                      readline N (pre ++ g) line = Returns (fst x, g))
            _ _ f line (l, f') H).
  - intros f0 line0 line1 f1 Hscan Hhash Hst. cbn [fst snd] in *.
    destruct (fscanf_line_local _ _ _ _ Hscan Hst) as (pre0 & E & Hloc).
    exists pre0. split; [exact E|]. intros g Hg.
    destruct (Hloc g Hg) as (g1 & Hscan' & Hskip).
    rewrite readline_unfold, Hscan', Hhash, Hskip. reflexivity.
  - intros f0 line0 line1 f1 [l' f''] Hscan Hhash Hret IH Hst.
    cbn [fst snd] in *.
    destruct (IH Hst) as (pre' & E' & Hloc').
    assert (Hst1 : starts_line (skip_ws f1) = true).
    { eapply starts_line_suffix; [apply skip_ws_stops | exact E' | exact Hst]. }
    destruct (fscanf_line_local _ _ _ _ Hscan Hst1) as (pre0 & E & Hloc).
    exists (pre0 ++ pre'). split.
    { rewrite <- app_assoc, <- E'. exact E. }
    intros g Hg.
    assert (Hg2 : starts_line (pre' ++ g) = true).
    { apply starts_line_replace with f''; [now rewrite <- E' | exact Hg]. }
    destruct (Hloc _ Hg2) as (g1 & Hscan' & Hskip).
    rewrite <- app_assoc, readline_unfold, Hscan', Hhash, Hskip.
    now apply Hloc'.
Qed.

(** Where a line begins, the previous content of the buffer is forgotten. *)
Lemma readline_fresh (f line line' : list ascii) :
  starts_line f = true -> readline N f line = readline N f line'.
Proof.
  intros Hf. rewrite (readline_unfold N f line), (readline_unfold N f line').
  unfold fscanf_line.
  destruct f as [|c f0]; [discriminate|].
  destruct N as [|k]; [lia|]. cbn [scan_line].
  destruct (Ascii.eqb_spec c NL) as [->|Hc]; [discriminate Hf|].
  destruct (scan_line k f0) as [m rest]. reflexivity.
Qed.

(** Comment lines that fit the buffer are skipped. *)
Lemma readline_comment_block (cs : list (list ascii)) (f : list ascii) :
  Forall (fun c => comment_line c = true /\ (List.length c <= N)%nat) cs ->
  starts_line f = true ->
  starts_line (comment_block cs ++ f) = true
  /\ forall line, readline N (comment_block cs ++ f) line = readline N f line.
Proof.
  intros Hcs Hf. induction Hcs as [|c cs [Hc Hlen] _ [IHst IH]].
  - split; [exact Hf | reflexivity].
  - unfold comment_line in Hc. apply andb_prop in Hc as [Hhash Hnl].
    assert (Hc0 : exists c0, c = "#"%char :: c0).
    { destruct c as [|x c0]; [discriminate Hhash|].
      cbn in Hhash. apply Ascii.eqb_eq in Hhash. subst x. now eexists. }
    destruct Hc0 as (c0 & ->).
    cbn [comment_block flat_map]. fold (comment_block cs).
    rewrite <- !app_assoc. split; [reflexivity|].
    intros line. rewrite readline_unfold. unfold fscanf_line.
    rewrite (scan_line_intro N ("#"%char :: c0)); [| exact Hlen | |].
    + cbn [hd app]. rewrite Ascii.eqb_refl.
      change (skip_ws (NL :: comment_block cs ++ f))
        with (skip_ws (comment_block cs ++ f)).
      rewrite (skip_ws_starts_line _ IHst), IH.
      apply readline_fresh. exact Hf.
    + intros Hin. rewrite forallb_forall in Hnl.
      specialize (Hnl _ Hin). now rewrite Ascii.eqb_refl in Hnl.
    + right; right. now eexists.
Qed.

(** Replacing what begins at a line start [t] by a stream that reads the
    same from there does not change the call. *)
Lemma readline_replace_at (f line t : list ascii) :
  line_start N f line t ->
  starts_line t = true ->
  forall x g,
    readline N f line = Returns x ->
    starts_line g = true ->
    (forall line', readline N g line' = readline N t line') ->
    exists pre, f = pre ++ t /\ readline N (pre ++ g) line = Returns x.
Proof.
  intros Hls Ht x g. induction Hls as [f line|f line line1 f1 t Hscan Hhash Hls IH];
    intros Hret Hg Hsame.
  - exists []. split; [reflexivity|]. cbn [app]. now rewrite Hsame.
  - rewrite readline_unfold, Hscan, Hhash in Hret.
    destruct (IH Ht Hret Hg Hsame) as (pre' & E' & Hret').
    assert (Hst1 : starts_line (skip_ws f1) = true).
    { eapply starts_line_suffix; [apply skip_ws_stops | exact E' | exact Ht]. }
    destruct (fscanf_line_local _ _ _ _ Hscan Hst1) as (pre0 & E & Hloc).
    exists (pre0 ++ pre'). split.
    { rewrite <- app_assoc, <- E'. exact E. }
    assert (Hg2 : starts_line (pre' ++ g) = true).
    { apply starts_line_replace with t; [now rewrite <- E' | exact Hg]. }
    destruct (Hloc _ Hg2) as (g1 & Hscan' & Hskip).
    rewrite <- app_assoc, readline_unfold, Hscan', Hhash, Hskip.
    exact Hret'.
Qed.

Lemma loop_starts_line_start :
  forall fuel f line t, In t (loop_starts fuel N f line) -> line_start N f line t.
Proof.
  induction fuel as [|k IH]; intros f line t Hin; [destruct Hin|].
  cbn [loop_starts] in Hin. destruct Hin as [<-|Hin]; [constructor|].
  destruct (fscanf_line N f line) as [line1 f1] eqn:Hscan.
  destruct (Ascii.eqb (hd NUL line1) "#"%char) eqn:Hhash; [|destruct Hin].
  eapply line_start_next; eauto.
Qed.

(** Comment lines inserted where the loop begins to read a line, the line
    being there, leave the result of the call as it is. *)
Lemma readline_insert_comments (f line t : list ascii) (cs : list (list ascii)) x :
  In t (line_starts N f line) ->
  starts_line t = true ->
  Forall (fun c => comment_line c = true /\ (List.length c <= N)%nat) cs ->
  readline N f line = Returns x ->
  exists pre, f = pre ++ t
    /\ starts_line (comment_block cs ++ t) = true
    /\ readline N (pre ++ comment_block cs ++ t) line = Returns x.
Proof.
  intros Hin Ht Hcs Hret.
  apply loop_starts_line_start in Hin.
  destruct (readline_comment_block cs t Hcs Ht) as [Hg Hsame].
  destruct (readline_replace_at f line t Hin Ht x _ Hret Hg Hsame) as (pre & E & H).
  exists pre. auto.
Qed.

End Lines.

Lemma line_start_suffix (N : nat) (f line t : list ascii) :
  line_start N f line t -> exists pre, f = pre ++ t.
Proof.
  induction 1 as [f line|f line line1 f1 t Hscan _ _ (pre' & E')].
  - now exists [].
  - unfold fscanf_line in Hscan.
    destruct (scan_line N f) as [m rest] eqn:E.
    apply scan_line_split in E as (-> & _).
    destruct (skip_ws_split f1) as (ws & Ews & _).
    assert (Hf1 : f1 = rest) by (destruct m; cbn in Hscan; congruence).
    subst f1. exists (m ++ ws ++ pre').
    rewrite <- !app_assoc, <- E', <- Ews. reflexivity.
Qed.

Lemma insert_at_suffix (pre t blk : list ascii) :
  insert_at (List.length (pre ++ t) - List.length t) blk (pre ++ t)
  = pre ++ blk ++ t
  /\ skipn (List.length (pre ++ t) - List.length t) (pre ++ t) = t.
Proof.
  unfold insert_at.
  replace (List.length (pre ++ t) - List.length t)%nat with (List.length pre)
    by (rewrite length_app; lia).
  rewrite firstn_app, skipn_app, Nat.sub_diag, firstn_all, skipn_all.
  cbn. rewrite app_nil_r. split; reflexivity.
Qed.

Lemma load_header_inv (content junk : list ascii) (hdr : ppm_header_t) err :
  load_header (Some content) junk = Returns (Some hdr, err) ->
  exists l1 f1 l2 f2 l3 f3 ty w h m,
    readline MAX_LENGTH content junk = Returns (l1, f1)
    /\ (if strcmp_eq (str "P3") l1 then Some PPM_ASCII
        else if strcmp_eq (str "P6") l1 then Some PPM_RAW else None) = Some ty
    /\ readline MAX_LENGTH f1 l1 = Returns (l2, f2)
    /\ sscanf_u_u l2 0 0 = (2, w, h)
    /\ readline MAX_LENGTH f2 l2 = Returns (l3, f3)
    /\ sscanf_u l3 0 = (1, m)
    /\ (m >? 255) = false
    /\ hdr = mkheader ty w h m
               (Z.of_nat (List.length content - List.length f3))
    /\ err = [].
Proof.
  unfold load_header.
  destruct (readline MAX_LENGTH content junk) as [|[l1 f1]] eqn:H1;
    cbn [bind]; [discriminate|].
  destruct (if strcmp_eq (str "P3") l1 then Some PPM_ASCII
            else if strcmp_eq (str "P6") l1 then Some PPM_RAW else None)
    as [ty|] eqn:Hty; [|discriminate].
  destruct (readline MAX_LENGTH f1 l1) as [|[l2 f2]] eqn:H2;
    cbn [bind]; [discriminate|].
  destruct (sscanf_u_u l2 0 0) as [[matches w] h] eqn:Hd.
  destruct (Z.eqb_spec matches 2) as [->|]; cbn [negb]; [|discriminate].
  destruct (readline MAX_LENGTH f2 l2) as [|[l3 f3]] eqn:H3;
    cbn [bind]; [discriminate|].
  destruct (sscanf_u l3 0) as [matches' m] eqn:Hmv.
  destruct (Z.eqb_spec matches' 1) as [->|]; cbn [negb]; [|discriminate].
  destruct (m >? 255) eqn:Hm; [discriminate|].
  intros H. injection H as <- <-.
  exists l1, f1, l2, f2, l3, f3, ty, w, h, m. repeat split; auto.
Qed.

Lemma load_header_intro
  (content junk l1 f1 l2 f2 l3 f3 : list ascii) (ty : PPM_TYPE) (w h m : Z) :
  readline MAX_LENGTH content junk = Returns (l1, f1) ->
  (if strcmp_eq (str "P3") l1 then Some PPM_ASCII
   else if strcmp_eq (str "P6") l1 then Some PPM_RAW else None) = Some ty ->
  readline MAX_LENGTH f1 l1 = Returns (l2, f2) ->
  sscanf_u_u l2 0 0 = (2, w, h) ->
  readline MAX_LENGTH f2 l2 = Returns (l3, f3) ->
  sscanf_u l3 0 = (1, m) ->
  (m >? 255) = false ->
  load_header (Some content) junk
  = Returns (Some (mkheader ty w h m
                     (Z.of_nat (List.length content - List.length f3))), []).
Proof.
  intros H1 Hty H2 Hd H3 Hm Hle. unfold load_header.
  rewrite H1. cbn [bind]. rewrite Hty, H2. cbn [bind]. rewrite Hd.
  cbn [Z.eqb Pos.eqb negb]. rewrite H3. cbn [bind]. rewrite Hm.
  cbn [Z.eqb Pos.eqb negb]. rewrite Hle. reflexivity.
Qed.

Lemma short_comment_lines (cs : list (list ascii)) :
  forallb short_comment_line cs = true ->
  Forall (fun c => comment_line c = true /\ (List.length c <= MAX_LENGTH)%nat) cs.
Proof.
  intros H. apply Forall_forall. intros c Hin.
  rewrite forallb_forall in H. specialize (H c Hin).
  unfold short_comment_line in H. apply andb_prop in H as [H1 H2].
  split; [exact H1 | now apply Nat.leb_le].
Qed.

Lemma MAX_LENGTH_pos : (0 < MAX_LENGTH)%nat.
Proof.
  unfold MAX_LENGTH. lia.
Qed.

(** C10, as stated: a comment line of any length inserted before the
    dimensions line, or comment lines at any of the three positions, would
    leave the parsed header as it is.  Two cases where this fails: a
    comment line of 1025 characters before the dimensions line (the buffer
    takes 1024, the last character is read as the dimensions line, and the
    header is refused); a comment line at the position of the maximum
    value in a file that ends after its dimensions line (the header is
    accepted as it stands, and with the comment the loop of [readline]
    never ends). *)
Lemma C10_comment_insertion_fails :
  (comment_line long_comment = true
   /\ In 3%nat (header_line_offsets src_plain [])
   /\ load_header (Some src_plain) []
      = Returns (Some (mkheader PPM_RAW 1 1 255 11), [])
   /\ load_header (Some (insert_at 3 (comment_block [long_comment]) src_plain)) []
      = Returns (None, []))
  /\ (comment_line (str "# note") = true
      /\ In 7%nat (header_line_offsets src_no_maxval [])
      /\ load_header (Some src_no_maxval) []
         = Returns (Some (mkheader PPM_RAW 1 1 1 7), [])
      /\ load_header
           (Some (insert_at 7 (comment_block [str "# note"]) src_no_maxval)) []
         = Diverges).
Proof.
  split; (split; [vm_compute; reflexivity|]);
    (split; [vm_compute; tauto|]); split; vm_compute; reflexivity.
Qed.

Lemma line_starts_offset (content f line : list ascii) (p : nat) (pre0 : list ascii) :
  content = pre0 ++ f ->
  In p (map (fun t => (List.length content - List.length t)%nat)
          (line_starts MAX_LENGTH f line)) ->
  exists pre t, f = pre ++ t
    /\ In t (line_starts MAX_LENGTH f line)
    /\ p = (List.length content - List.length t)%nat
    /\ content = (pre0 ++ pre) ++ t.
Proof.
  intros E Hin. apply in_map_iff in Hin as (t & <- & Hin).
  destruct (line_start_suffix _ _ _ _ (loop_starts_line_start _ _ _ _ _ Hin))
    as (pre & Ef).
  exists pre, t. repeat split; auto.
  rewrite E, Ef, app_assoc. reflexivity.
Qed.

(** C10, amended: in a source whose header is accepted, consecutive comment
    lines (each beginning with ['#'], of at most 1024 characters, with its
    newline) inserted at an offset where [load_header] begins to read a
    line for the tag, the dimensions or the maximum value, such as
    immediately before the dimensions line, leave the parsed header as it
    is, provided a line is there (the byte at that offset exists and is
    not white space): same variant, width, height and maximum value, the
    data offset being moved by the length of the insertion. *)
Theorem C10_comment_lines_tolerated
  (content junk : list ascii) (hdr : ppm_header_t)
  (p : nat) (cs : list (list ascii)) :
  load_header (Some content) junk = Returns (Some hdr, []) ->
  In p (header_line_offsets content junk) ->
  starts_line (skipn p content) = true ->
  forallb short_comment_line cs = true ->
  load_header (Some (insert_at p (comment_block cs) content)) junk
  = Returns (Some (shift_header (List.length (comment_block cs)) hdr), []).
Proof.
  intros Hacc Hin Hline Hcs.
  apply short_comment_lines in Hcs.
  destruct (load_header_inv _ _ _ _ Hacc)
    as (l1 & f1 & l2 & f2 & l3 & f3 & ty & w & h & m
        & H1 & Hty & H2 & Hd & H3 & Hm & Hle & -> & _).
  destruct (readline_suffix _ _ _ _ _ H1) as [(a1 & E1) St1].
  destruct (readline_suffix _ _ _ _ _ H2) as [(a2 & E2) St2].
  destruct (readline_suffix _ _ _ _ _ H3) as [(a3 & E3) St3].
  assert (Hshift : forall pre t,
             content = pre ++ t ->
             Z.of_nat (List.length (pre ++ (comment_block cs) ++ t) - List.length f3)
             = Z.of_nat (List.length content - List.length f3)
               + Z.of_nat (List.length (comment_block cs))).
  { assert (Hlen3 : (List.length f3 <= List.length content)%nat)
      by (rewrite E1, E2, E3, !length_app; lia).
    intros pre t E. apply (f_equal (@List.length ascii)) in E.
    rewrite !length_app in *. lia. }
  unfold header_line_offsets in Hin. rewrite H1, H2 in Hin.
  apply in_app_or in Hin as [Hin|Hin]; [|apply in_app_or in Hin as [Hin|Hin]].
  - (* a line start of the tag line *)
    destruct (line_starts_offset content content junk p [] eq_refl Hin)
      as (pre & t & E & Ht & -> & _).
    rewrite E in Hline |- *.
    destruct (insert_at_suffix pre t (comment_block cs)) as [-> Hskip].
    rewrite Hskip in Hline. rewrite <- E in Hskip.
    destruct (readline_insert_comments _ MAX_LENGTH_pos _ _ _ cs _ Ht Hline Hcs H1)
      as (pre' & E' & _ & H1').
    assert (pre' = pre) by (apply (app_inv_tail t); congruence). subst pre'.
    rewrite (load_header_intro _ _ _ _ _ _ _ _ ty w h m H1' Hty H2 Hd H3 Hm Hle).
    unfold shift_header. cbn. rewrite (Hshift pre t E). now rewrite E.
  - (* a line start of the dimensions line *)
    destruct (line_starts_offset content f1 l1 p a1 E1 Hin)
      as (pre & t & E & Ht & -> & Ec).
    rewrite Ec in Hline |- *.
    destruct (insert_at_suffix (a1 ++ pre) t (comment_block cs)) as [-> Hskip].
    rewrite Hskip in Hline.
    destruct (readline_insert_comments _ MAX_LENGTH_pos _ _ _ cs _ Ht Hline Hcs H2)
      as (pre' & E' & Hcb & H2').
    assert (pre' = pre) by (apply (app_inv_tail t); congruence). subst pre'.
    assert (Hst1 : starts_line f1 = true)
      by (eapply starts_line_suffix; eauto).
    destruct (readline_local _ _ _ _ _ H1 Hst1) as (b1 & Eb1 & Hloc1).
    assert (b1 = a1) by (apply (app_inv_tail f1); congruence). subst b1.
    assert (Hg : starts_line (pre ++ (comment_block cs) ++ t) = true).
    { apply starts_line_replace with t; [now rewrite <- E | exact Hcb]. }
    specialize (Hloc1 _ Hg). rewrite <- app_assoc.
    rewrite (load_header_intro _ _ _ _ _ _ _ _ ty w h m Hloc1 Hty H2' Hd H3 Hm Hle).
    unfold shift_header. cbn. rewrite app_assoc.
    rewrite (Hshift (a1 ++ pre) t Ec). now rewrite Ec.
  - (* a line start of the line of the maximum value *)
    assert (Ec2 : content = (a1 ++ a2) ++ f2)
      by (rewrite <- app_assoc, <- E2; exact E1).
    destruct (line_starts_offset content f2 l2 p (a1 ++ a2) Ec2 Hin)
      as (pre & t & E & Ht & -> & Ec).
    rewrite Ec in Hline |- *.
    destruct (insert_at_suffix ((a1 ++ a2) ++ pre) t (comment_block cs)) as [-> Hskip].
    rewrite Hskip in Hline.
    destruct (readline_insert_comments _ MAX_LENGTH_pos _ _ _ cs _ Ht Hline Hcs H3)
      as (pre' & E' & Hcb & H3').
    assert (pre' = pre) by (apply (app_inv_tail t); congruence). subst pre'.
    assert (Hst2 : starts_line f2 = true)
      by (eapply starts_line_suffix; eauto).
    assert (Hst1 : starts_line f1 = true)
      by (eapply starts_line_suffix; eauto).
    destruct (readline_local _ _ _ _ _ H1 Hst1) as (b1 & Eb1 & Hloc1).
    assert (b1 = a1) by (apply (app_inv_tail f1); congruence). subst b1.
    destruct (readline_local _ _ _ _ _ H2 Hst2) as (b2 & Eb2 & Hloc2).
    assert (b2 = a2) by (apply (app_inv_tail f2); congruence). subst b2.
    assert (Hg2 : starts_line (pre ++ (comment_block cs) ++ t) = true).
    { apply starts_line_replace with t; [now rewrite <- E | exact Hcb]. }
    specialize (Hloc2 _ Hg2).
    assert (Hg1 : starts_line (a2 ++ pre ++ (comment_block cs) ++ t) = true).
    { apply starts_line_replace with f2; [now rewrite <- E2 | exact Hg2]. }
    specialize (Hloc1 _ Hg1). rewrite <- !app_assoc.
    rewrite (load_header_intro _ _ _ _ _ _ _ _ ty w h m Hloc1 Hty Hloc2 Hd H3' Hm Hle).
    unfold shift_header. cbn.
    replace (a1 ++ a2 ++ pre ++ comment_block cs ++ t)
      with (((a1 ++ a2) ++ pre) ++ comment_block cs ++ t)
      by now rewrite <- !app_assoc.
    rewrite (Hshift ((a1 ++ a2) ++ pre) t Ec), Ec, <- !app_assoc. reflexivity.
Qed.

(** At the offsets where the dimensions line is looked for, a line is
    always there when the header is accepted: the proviso of the theorem
    only matters before the tag line and before the maximum value. *)
Lemma line_start_stops (N : nat) (f line t : list ascii) :
  line_start N f line t ->
  f = [] \/ starts_line f = true -> t = [] \/ starts_line t = true.
Proof.
  induction 1 as [f line|f line line1 f1 t _ _ _ IH]; intros Hf;
    [exact Hf | apply IH, skip_ws_stops].
Qed.

Lemma readline_nil (N : nat) (line : list ascii) :
  readline N [] line
  = if Ascii.eqb (hd NUL line) "#"%char then Diverges else Returns (line, []).
Proof.
  unfold readline. cbn [List.length readline_loop].
  replace (fscanf_line N [] line) with (line, @nil ascii)
    by (unfold fscanf_line; now destruct N).
  reflexivity.
Qed.

Lemma line_start_end_of_file (N : nat) (f line l f' : list ascii) :
  line_start N f line [] ->
  readline N f line = Returns (l, f') -> f = [] /\ l = line.
Proof.
  intros Hls. remember [] as t eqn:Et. revert Et.
  induction Hls as [f line|f line line1 f1 t Hscan Hhash Hls IH];
    intros -> Hret.
  - split; [reflexivity|]. rewrite readline_nil in Hret.
    destruct (Ascii.eqb (hd NUL line) "#"%char); [discriminate Hret|].
    now injection Hret as ->.
  - exfalso. rewrite readline_unfold, Hscan, Hhash in Hret.
    destruct (IH eq_refl Hret) as [E ->].
    rewrite E, readline_nil, Hhash in Hret. discriminate Hret.
Qed.

Lemma dimensions_line_is_present
  (content junk l1 f1 : list ascii) (hdr : ppm_header_t) (p : nat) :
  load_header (Some content) junk = Returns (Some hdr, []) ->
  readline MAX_LENGTH content junk = Returns (l1, f1) ->
  In p (map (fun t => (List.length content - List.length t)%nat)
          (line_starts MAX_LENGTH f1 l1)) ->
  starts_line (skipn p content) = true.
Proof.
  intros Hacc H1 Hin.
  destruct (load_header_inv _ _ _ _ Hacc)
    as (l1' & f1' & l2 & f2 & l3 & f3 & ty & w & h & m
        & H1' & Hty & H2 & Hd & _).
  rewrite H1 in H1'. injection H1' as <- <-.
  destruct (readline_suffix _ _ _ _ _ H1) as [(a1 & E1) St1].
  destruct (line_starts_offset content f1 l1 p a1 E1 Hin)
    as (pre & t & E & Ht & -> & Ec).
  rewrite Ec. destruct (insert_at_suffix (a1 ++ pre) t []) as [_ ->].
  apply loop_starts_line_start in Ht.
  destruct (line_start_stops _ _ _ _ Ht St1) as [->|Hst]; [|exact Hst].
  exfalso. destruct (line_start_end_of_file _ _ _ _ _ Ht H2) as [_ ->].
  unfold sscanf_u_u in Hd.
  destruct (strcmp_eq (str "P3") l1) eqn:E3.
  - rewrite (strcmp_eq_P3 _ E3) in Hd. discriminate Hd.
  - destruct (strcmp_eq (str "P6") l1) eqn:E6; [|discriminate Hty].
    rewrite (strcmp_eq_P6 _ E6) in Hd. discriminate Hd.
Qed.

Lemma C10_comment_lines_tolerated_witness :
  load_header
    (Some (insert_at 9 (comment_block [str "# note"; str "#"]) src_commented)) []
  = Returns (Some (mkheader PPM_ASCII 2 1 255 26), []).
Proof.
  apply (C10_comment_lines_tolerated src_commented []
           (mkheader PPM_ASCII 2 1 255 17) 9 [str "# note"; str "#"]).
  - reflexivity.
  - vm_compute. tauto.
  - reflexivity.
  - reflexivity.
Defined.

(** ** Reading back the header that [write_ppm] prints *)

Lemma cstr_id (l : list ascii) : ~ In NUL l -> cstr l = l.
Proof.
  induction l as [|c l IH]; intros H; [reflexivity|].
  cbn. destruct (Ascii.eqb_spec c NUL) as [->|_].
  - exfalso. apply H. now left.
  - f_equal. apply IH. intros Hin. apply H. now right.
Qed.

(** A line that is there, is not a comment and fits the buffer is what
    [readline] returns, the stream being left where the next line begins. *)
Lemma readline_line (N : nat) (l rest line : list ascii) :
  l <> [] -> Ascii.eqb (hd NUL l) "#"%char = false ->
  ~ In NL l -> (List.length l <= N)%nat ->
  rest = [] \/ starts_line rest = true ->
  readline N (l ++ NL :: rest) line = Returns (l, rest).
Proof.
  intros Hne Hhash Hnl Hlen Hrest.
  rewrite readline_unfold. unfold fscanf_line.
  rewrite (scan_line_intro N l (NL :: rest) Hlen Hnl)
    by (right; right; now eexists).
  destruct l as [|c l]; [congruence|].
  rewrite Hhash. f_equal. f_equal.
  change (skip_ws (NL :: rest)) with (skip_ws rest).
  destruct Hrest as [->|H]; [reflexivity | now apply skip_ws_starts_line].
Qed.

Lemma fmt_d_nonneg (n : Z) : 0 <= n -> fmt_d n = decimal n.
Proof.
  intros H. unfold fmt_d. destruct (Z.ltb_spec n 0); [lia | reflexivity].
Qed.

Lemma digits_exclude (x : ascii) (l : list ascii) :
  isdigit x = false -> Forall (fun c => isdigit c = true) l -> ~ In x l.
Proof.
  intros Hx Hl Hin. rewrite Forall_forall in Hl.
  specialize (Hl _ Hin). congruence.
Qed.

Lemma starts_line_decimal (n : Z) (rest : list ascii) :
  starts_line (decimal n ++ rest) = true.
Proof.
  destruct (decimal_cons n) as (c & l & -> & Hc & _).
  cbn. now rewrite (isdigit_not_space c Hc).
Qed.

(** The header printed by [write_ppm] is read back by [load_header] when
    the pixel data that follow are empty or begin with a byte that is not
    white space. *)
Lemma load_header_printed
  (tag : list ascii) (ty : PPM_TYPE) (w h : Z) (data junk : list ascii) :
  (tag = str "P3" /\ ty = PPM_ASCII) \/ (tag = str "P6" /\ ty = PPM_RAW) ->
  0 <= w < 2 ^ 32 -> 0 <= h < 2 ^ 32 ->
  data = [] \/ starts_line data = true ->
  load_header (Some (fprintf_header tag w h ++ data)) junk
  = Returns (Some (mkheader ty w h 255
                     (Z.of_nat (List.length (fprintf_header tag w h)))), []).
Proof.
  intros Htag Hw Hh Hdata.
  set (l2 := decimal w ++ " "%char :: decimal h).
  set (f2 := str "255" ++ NL :: data).
  set (f1 := l2 ++ NL :: f2).
  assert (E : fprintf_header tag w h ++ data = tag ++ NL :: f1).
  { unfold fprintf_header, f1, f2, l2.
    rewrite !fmt_d_nonneg by lia. rewrite <- !app_assoc. reflexivity. }
  assert (Hlen : (List.length (fprintf_header tag w h ++ data) - List.length data
                  = List.length (fprintf_header tag w h))%nat)
    by (rewrite length_app; lia).
  rewrite <- Hlen, E.
  assert (Hl2_digit : exists c l, l2 = c :: l /\ isdigit c = true).
  { destruct (decimal_cons w) as (c & l & Ec & Hc & _).
    exists c, (l ++ " "%char :: decimal h). unfold l2. now rewrite Ec. }
  assert (Hl2_in : forall x, isdigit x = false -> x <> " "%char -> ~ In x l2).
  { intros x Hx Hsp Hin. unfold l2 in Hin.
    apply in_app_or in Hin as [Hin|[Hin|Hin]].
    - now apply (digits_exclude x (decimal w) Hx (decimal_isdigit w)).
    - now apply Hsp.
    - now apply (digits_exclude x (decimal h) Hx (decimal_isdigit h)). }
  apply load_header_intro with (l1 := tag) (f1 := f1) (l2 := l2) (f2 := f2)
                               (l3 := str "255").
  - apply readline_line.
    + destruct Htag as [[-> _]|[-> _]]; discriminate.
    + destruct Htag as [[-> _]|[-> _]]; reflexivity.
    + destruct Htag as [[-> _]|[-> _]]; cbn; intuition discriminate.
    + destruct Htag as [[-> _]|[-> _]]; cbn; unfold MAX_LENGTH; lia.
    + right. destruct Hl2_digit as (c & l & Ec & Hc). unfold f1. rewrite Ec.
      cbn. now rewrite (isdigit_not_space c Hc).
  - destruct Htag as [[-> ->]|[-> ->]]; reflexivity.
  - apply readline_line.
    + destruct Hl2_digit as (c & l & Ec & _). rewrite Ec. discriminate.
    + destruct Hl2_digit as (c & l & Ec & Hc). rewrite Ec. cbn.
      destruct (Ascii.eqb_spec c "#"%char) as [->|_]; [discriminate Hc | reflexivity].
    + apply Hl2_in; [reflexivity | discriminate].
    + unfold l2. rewrite length_app. cbn [List.length].
      pose proof (decimal_length w Hw). pose proof (decimal_length h Hh).
      unfold MAX_LENGTH. lia.
    + right. reflexivity.
  - unfold sscanf_u_u.
    rewrite cstr_id by (apply Hl2_in; [reflexivity | discriminate]).
    unfold l2.
    pose proof (scan_u_decimal [] (" "%char :: decimal h) w eq_refl Hw eq_refl)
      as S1.
    cbn [app] in S1. rewrite S1.
    change (skip_ws (" "%char :: decimal h)) with (skip_ws (decimal h)).
    pose proof (starts_line_decimal h []) as St. rewrite app_nil_r in St.
    rewrite (skip_ws_starts_line _ St).
    pose proof (scan_u_decimal [] [] h eq_refl Hh eq_refl) as S3.
    cbn [app] in S3. rewrite app_nil_r in S3. rewrite S3.
    reflexivity.
  - apply readline_line; try (cbn; unfold MAX_LENGTH; lia);
      try discriminate; try reflexivity; auto.
    cbn. intuition discriminate.
  - reflexivity.
  - reflexivity.
Qed.

(** ** Reading back the pixels that [write_ppm] prints *)

Lemma scan_u_skip_ws (s : list ascii) : scan_u (skip_ws s) = scan_u s.
Proof.
  unfold scan_u. now rewrite skip_ws_idem.
Qed.

Lemma scan_u_decimal_blank (rest : list ascii) (v : Z) :
  0 <= v < 2 ^ 32 -> no_digit_ahead rest = true ->
  scan_u (" "%char :: decimal v ++ rest) = Converted v rest.
Proof.
  intros Hv Hrest. exact (scan_u_decimal [" "%char] rest v eq_refl Hv Hrest).
Qed.

Lemma fscanf_printed_pixel (ws rest : list ascii) (p : pixel_t) :
  forallb isspace ws = true -> byte_pixel p ->
  fscanf_u_u_u (ws ++ fprintf_pixel p ++ rest)
  = (3, (r p, g p, b p), " "%char :: rest).
Proof.
  intros Hws (Hr & Hg & Hb). unfold fscanf_u_u_u, fprintf_pixel.
  rewrite !fmt_d_nonneg by lia. rewrite <- !app_assoc. cbn [app].
  rewrite (scan_u_decimal ws _ (r p) Hws) by (lia || reflexivity).
  rewrite scan_u_skip_ws.
  rewrite (scan_u_decimal_blank _ (g p)) by (lia || reflexivity).
  rewrite scan_u_skip_ws.
  rewrite (scan_u_decimal_blank _ (b p)) by (lia || reflexivity).
  reflexivity.
Qed.

Lemma text_block_step (pix : list pixel_t) (i k : nat) :
  text_block pix i (S k)
  = fprintf_pixel (nth i pix pixel0)
      ++ (if Z.of_nat (S i) mod 5 =? 0 then [NL] else [])
      ++ text_block pix (S i) k.
Proof.
  unfold text_block. cbn [seq flat_map]. now rewrite <- app_assoc.
Qed.

Lemma pixel_eta (p : pixel_t) : mkpixel (r p) (g p) (b p) = p.
Proof.
  now destruct p.
Qed.

Lemma load_ascii_text_block (pix : list pixel_t) :
  forall k i ws buf,
    forallb isspace ws = true ->
    (forall j, (i <= j < i + k)%nat -> byte_pixel (nth j pix pixel0)) ->
    (i + k <= List.length buf)%nat ->
    exists buf',
      load_ascii k i 255 (ws ++ text_block pix i k) buf = Some buf'
      /\ List.length buf' = List.length buf
      /\ (forall j, (j < i)%nat -> nth j buf' pixel0 = nth j buf pixel0)
      /\ (forall j, (i <= j < i + k)%nat ->
            nth j buf' pixel0 = nth j pix pixel0).
Proof.
  induction k as [|k IH]; intros i ws buf Hws Hpix Hlen.
  - exists buf. repeat split; auto. intros j Hj. lia.
  - cbn [load_ascii]. rewrite text_block_step.
    assert (Hp : byte_pixel (nth i pix pixel0)) by (apply Hpix; lia).
    rewrite (fscanf_printed_pixel ws _ _ Hws Hp).
    destruct Hp as (Hr & Hg & Hb).
    cbn [Z.eqb Pos.eqb negb].
    destruct (Z.gtb_spec (r (nth i pix pixel0)) 255); [lia|].
    destruct (Z.gtb_spec (g (nth i pix pixel0)) 255); [lia|].
    destruct (Z.gtb_spec (b (nth i pix pixel0)) 255); [lia|].
    cbn [orb]. unfold to_uint8.
    rewrite (Z.mod_small (r (nth i pix pixel0))), (Z.mod_small (g (nth i pix pixel0))),
      (Z.mod_small (b (nth i pix pixel0))) by lia.
    rewrite pixel_eta.
    set (sep := if Z.of_nat (S i) mod 5 =? 0 then [NL] else []).
    assert (Hsep : forallb isspace (" "%char :: sep) = true)
      by (unfold sep; destruct (Z.of_nat (S i) mod 5 =? 0); reflexivity).
    change (" "%char :: sep ++ text_block pix (S i) k)
      with ((" "%char :: sep) ++ text_block pix (S i) k).
    destruct (IH (S i) (" "%char :: sep) (store i (nth i pix pixel0) buf) Hsep)
      as (buf' & Hload & Hl & Hbefore & Hafter).
    + intros j Hj. apply Hpix. lia.
    + rewrite store_length. lia.
    + exists buf'. split; [exact Hload|]. split.
      { now rewrite Hl, store_length. }
      split.
      * intros j Hj. rewrite Hbefore by lia. apply store_nth_other. lia.
      * intros j Hj. destruct (Nat.eq_dec j i) as [->|Hne].
        -- rewrite Hbefore by lia. apply store_nth_same. lia.
        -- apply Hafter. lia.
Qed.

Lemma write_ppm_ascii (img : img_t) :
  write_ppm true img PPM_ASCII
  = (true, Some (fprintf_header (str "P3") (width img) (height img)
                   ++ text_block (pix1d img) 0
                        (Z.to_nat (to_int (width img * height img))))).
Proof.
  unfold write_ppm. cbn [negb].
  rewrite (write_ascii_text_block (pix1d img) _ 0); [reflexivity|].
  pose proof (to_int_range (width img * height img)). lia.
Qed.

Lemma text_block_starts (pix : list pixel_t) (i k : nat) :
  text_block pix i k = [] \/ starts_line (text_block pix i k) = true.
Proof.
  destruct k as [|k]; [now left|]. right.
  rewrite text_block_step. unfold fprintf_pixel, fmt_d.
  destruct (r (nth i pix pixel0) <? 0); [reflexivity|].
  rewrite <- !app_assoc. apply starts_line_decimal.
Qed.

Lemma img_eta (img : img_t) : mkimg (width img) (height img) (pix1d img) = img.
Proof.
  now destruct img.
Qed.

Lemma skipn_header (hd data : list ascii) :
  skipn (Z.to_nat (Z.of_nat (List.length hd))) (hd ++ data) = data.
Proof.
  rewrite Nat2Z.id, skipn_app, Nat.sub_diag, skipn_all. reflexivity.
Qed.

Lemma well_formed_dims (img : img_t) :
  well_formed img ->
  0 < width img < 2 ^ 31 /\ 0 < height img < 2 ^ 31
  /\ Z.to_nat (width img * height img) = List.length (pix1d img).
Proof.
  intros [Hw Hh Hs Hl _]. repeat split; try lia; nia.
Qed.

(** The text half of the round trip: for every well-formed image, what
    [write_ppm] writes in the text variant is loaded back by [load_ppm] as
    the same image. *)
Lemma text_round_trip (img : img_t) (junk : list ascii) (heap : nat -> pixel_t) :
  well_formed img ->
  exists out,
    write_ppm true img PPM_ASCII = (true, Some out)
    /\ load_ppm (world_of out junk heap) = Returns (Some img, []).
Proof.
  intros Hwf. destruct (well_formed_dims img Hwf) as (Hw & Hh & Hn).
  destruct Hwf as [_ _ Hs Hl Hb].
  eexists. split; [apply write_ppm_ascii|].
  rewrite to_int_small by nia. rewrite Hn.
  set (n := List.length (pix1d img)).
  unfold load_ppm. cbn [file stack_junk world_of].
  rewrite (load_header_printed _ PPM_ASCII) by
    (auto; try lia; apply text_block_starts).
  cbn [bind hwidth hheight type maxval data_offset].
  unfold alloc_img. cbn [malloc_ok world_of negb heap_junk].
  rewrite !to_int_small by lia.
  rewrite skipn_header.
  unfold to_uint. rewrite Z.mod_small by nia. rewrite Hn. fold n.
  destruct (load_ascii_text_block (pix1d img) n 0 []
              (map heap (seq 0 n)) eq_refl)
    as (buf' & Hload & Hlen & _ & Hsame).
  - intros j Hj. rewrite Forall_forall in Hb. apply Hb, nth_In. unfold n in Hj. lia.
  - rewrite length_map, length_seq. lia.
  - cbn [app] in Hload. cbn [pix1d width height]. rewrite Hload.
    replace buf' with (pix1d img); [now rewrite img_eta|].
    apply (nth_ext _ _ pixel0 pixel0).
    + rewrite Hlen, length_map, length_seq. reflexivity.
    + intros j Hj. symmetry. apply Hsame. unfold n. lia.
Qed.

(** ** Reading back the bytes that [write_ppm] writes *)

Lemma write_raw_length (pix : list pixel_t) :
  forall n i, List.length (write_raw n i pix) = (3 * n)%nat.
Proof.
  induction n as [|n IH]; intros i; [reflexivity|].
  cbn [write_raw]. rewrite length_app, IH. cbn. lia.
Qed.



(** ** Examples *)

Example load_text_2x1 (junk : list ascii) (heap : nat -> pixel_t) :
  load_ppm (world_of src_text_2x1 junk heap)
  = Returns (Some (mkimg 2 1 [mkpixel 10 20 30; mkpixel 40 50 60]), []).
Proof.
  reflexivity.
Qed.

Example two_integers_exactly_examples :
  two_integers_exactly (str " 640  480 ") = true
  /\ two_integers_exactly (str "640") = false
  /\ two_integers_exactly (str "640 x") = false
  /\ begins_with_two_numbers (str "640 480 3") = true
  /\ begins_with_two_numbers (str "640 x") = false.
Proof.
  repeat split; reflexivity.
Qed.

Example well_formed_4x3 : well_formed img_4x3.
Proof.
  constructor; cbn; try lia; try reflexivity.
  repeat constructor; cbn; lia.
Qed.

Example text_round_trip_4x3 (junk : list ascii) (heap : nat -> pixel_t) :
  exists out,
    write_ppm true img_4x3 PPM_ASCII = (true, Some out)
    /\ load_ppm (world_of out junk heap) = Returns (Some img_4x3, []).
Proof.
  apply text_round_trip, well_formed_4x3.
Qed.

(** ** Store then load *)

(** C2, the code at a failing input: the 1x1 image with pixel (32,0,128),
    stored in the binary variant and loaded back.  The byte 32 that opens
    the pixel data is a blank, the ["\n"] directive at the end of
    [readline] consumes it with the header, and the data offset is one too
    far: the image loaded is (0,128,junk), not (32,0,128). *)
Lemma C2_binary_round_trip_fails (junk : list ascii) (heap : nat -> pixel_t) :
  exists out,
    write_ppm true img_blank PPM_RAW = (true, Some out)
    /\ load_ppm (world_of out junk heap)
       = Returns (Some (mkimg 1 1 [mkpixel 0 128 (b (heap 0%nat))]), [])
    /\ mkimg 1 1 [mkpixel 0 128 (b (heap 0%nat))] <> img_blank.
Proof.
  eexists. split; [reflexivity|]. split; [reflexivity|]. discriminate.
Qed.

(** * Further properties of the code *)

(** ** Sources laid out line by line *)

Lemma header_line_inv (l : list ascii) :
  header_line l = true ->
  starts_line l = true /\ Ascii.eqb (hd NUL l) "#"%char = false
  /\ ~ In NL l /\ (List.length l <= MAX_LENGTH)%nat.
Proof.
  unfold header_line. intros H.
  apply andb_prop in H as [H Hlen]. apply andb_prop in H as [H Hnl].
  apply andb_prop in H as [Hst Hh].
  split; [exact Hst|]. split; [now apply negb_true_iff|].
  split; [|now apply Nat.leb_le].
  intros Hin. rewrite forallb_forall in Hnl. specialize (Hnl _ Hin).
  now rewrite Ascii.eqb_refl in Hnl.
Qed.

Lemma line_end_inv (tail : list ascii) :
  line_end tail = true -> tail = [] \/ exists t, tail = NL :: t.
Proof.
  destruct tail as [|c t]; [now left|]. cbn. intros H.
  apply Ascii.eqb_eq in H. subst c. right. now eexists.
Qed.

(** One line, up to its newline or to the end of the file. *)
Lemma readline_line_end (N : nat) (l tail line : list ascii) :
  l <> [] -> Ascii.eqb (hd NUL l) "#"%char = false ->
  ~ In NL l -> (List.length l <= N)%nat -> line_end tail = true ->
  readline N (l ++ tail) line = Returns (l, skip_ws tail).
Proof.
  intros Hne Hhash Hnl Hlen Hend.
  rewrite readline_unfold. unfold fscanf_line.
  rewrite (scan_line_intro N l tail Hlen Hnl)
    by (right; now apply line_end_inv).
  destruct l as [|c l]; [congruence|]. now rewrite Hhash.
Qed.

Lemma header_line_starts (l tail : list ascii) :
  header_line l = true -> starts_line (l ++ tail) = true.
Proof.
  intros Hl. apply header_line_inv in Hl as (Hst & _).
  destruct l; [discriminate Hst | exact Hst].
Qed.

Lemma source_1_starts (c0 : list (list ascii)) (l tail : list ascii) :
  forallb short_comment_line c0 = true -> header_line l = true ->
  starts_line (source_1 c0 l tail) = true.
Proof.
  intros Hc Hl.
  exact (proj1 (readline_comment_block MAX_LENGTH MAX_LENGTH_pos c0 _
                  (short_comment_lines c0 Hc) (header_line_starts l tail Hl))).
Qed.

(** Comment lines, then a line: [readline] returns the line and leaves the
    stream after the white space that follows it. *)
Lemma readline_source_1 (c0 : list (list ascii)) (l tail line : list ascii) :
  forallb short_comment_line c0 = true -> header_line l = true ->
  line_end tail = true ->
  readline MAX_LENGTH (source_1 c0 l tail) line = Returns (l, skip_ws tail).
Proof.
  intros Hc Hl Hend. unfold source_1.
  rewrite (proj2 (readline_comment_block MAX_LENGTH MAX_LENGTH_pos c0 _
                    (short_comment_lines c0 Hc) (header_line_starts l tail Hl))).
  destruct (header_line_inv l Hl) as (Hst & Hh & Hnl & Hlen).
  apply readline_line_end; auto. now apply starts_line_nonempty.
Qed.

Lemma skip_ws_next_line
  (ws : list ascii) (c : list (list ascii)) (l tail : list ascii) :
  forallb isspace ws = true -> forallb short_comment_line c = true ->
  header_line l = true ->
  skip_ws (NL :: ws ++ source_1 c l tail) = source_1 c l tail.
Proof.
  intros Hws Hc Hl.
  change (skip_ws (NL :: ws ++ source_1 c l tail))
    with (skip_ws (ws ++ source_1 c l tail)).
  rewrite skip_ws_app by exact Hws.
  now apply skip_ws_starts_line, source_1_starts.
Qed.

Lemma tag_of_line (ty : PPM_TYPE) :
  header_line (tag_of ty) = true
  /\ (if strcmp_eq (str "P3") (tag_of ty) then Some PPM_ASCII
      else if strcmp_eq (str "P6") (tag_of ty) then Some PPM_RAW else None)
     = Some ty.
Proof. destruct ty; split; reflexivity. Qed.

(** The first two lines of a source laid out line by line. *)
Lemma readline_source_2
  (c0 c1 : list (list ascii)) (l1 ws1 l2 tail line : list ascii) :
  forallb short_comment_line c0 = true -> header_line l1 = true ->
  forallb isspace ws1 = true -> forallb short_comment_line c1 = true ->
  header_line l2 = true -> line_end tail = true ->
  readline MAX_LENGTH (source_2 c0 l1 ws1 c1 l2 tail) line
  = Returns (l1, source_1 c1 l2 tail)
  /\ readline MAX_LENGTH (source_1 c1 l2 tail) l1 = Returns (l2, skip_ws tail).
Proof.
  intros Hc0 Hl1 Hws1 Hc1 Hl2 Hend. split.
  - unfold source_2. rewrite readline_source_1 by auto.
    now rewrite skip_ws_next_line.
  - now apply readline_source_1.
Qed.

(** A tag line that is not a tag. *)
Lemma load_header_source_tag
  (junk : list ascii) (c0 : list (list ascii)) (l1 tail : list ascii) :
  forallb short_comment_line c0 = true -> header_line l1 = true ->
  line_end tail = true ->
  cstr l1 <> str "P3" -> cstr l1 <> str "P6" ->
  load_header (Some (source_1 c0 l1 tail)) junk = Returns (None, msg_format).
Proof.
  intros Hc0 Hl1 Hend H3 H6. unfold load_header.
  rewrite readline_source_1 by auto. cbn [bind].
  destruct (strcmp_eq (str "P3") l1) eqn:E3;
    [now apply strcmp_eq_P3 in E3|].
  destruct (strcmp_eq (str "P6") l1) eqn:E6;
    [now apply strcmp_eq_P6 in E6|].
  reflexivity.
Qed.

(** A dimensions line that does not begin with two numbers. *)
Lemma load_header_source_dims
  (junk : list ascii) (ty : PPM_TYPE) (c0 c1 : list (list ascii))
  (ws1 dims tail : list ascii) :
  forallb short_comment_line c0 = true -> forallb isspace ws1 = true ->
  forallb short_comment_line c1 = true -> header_line dims = true ->
  line_end tail = true ->
  begins_with_two_numbers (cstr dims) = false ->
  load_header (Some (source_2 c0 (tag_of ty) ws1 c1 dims tail)) junk
  = Returns (None, []).
Proof.
  intros Hc0 Hws1 Hc1 Hd Hend Hbad.
  destruct (tag_of_line ty) as [Htag Hty].
  destruct (readline_source_2 c0 c1 (tag_of ty) ws1 dims tail junk)
    as [R1 R2]; auto.
  unfold load_header. rewrite R1. cbn [bind]. rewrite Hty, R2. cbn [bind].
  pose proof (sscanf_u_u_two dims 0 0) as Hiff.
  destruct (sscanf_u_u dims 0 0) as [[matches wd] ht]. cbn [fst] in Hiff.
  destruct (Z.eqb_spec matches 2) as [E|E]; [|reflexivity].
  apply Hiff in E. congruence.
Qed.

(** With the tag and the dimensions accepted, the outcome is decided by
    the line of the maximum value. *)
Lemma load_header_source_3
  (junk : list ascii) (ty : PPM_TYPE) (c0 c1 c2 : list (list ascii))
  (ws1 dims ws2 l3 tail : list ascii) (w h : Z) :
  forallb short_comment_line c0 = true -> forallb isspace ws1 = true ->
  forallb short_comment_line c1 = true -> header_line dims = true ->
  forallb isspace ws2 = true -> forallb short_comment_line c2 = true ->
  header_line l3 = true -> line_end tail = true ->
  sscanf_u_u dims 0 0 = (2, w, h) ->
  load_header (Some (source_3 c0 (tag_of ty) ws1 c1 dims ws2 c2 l3 tail)) junk
  = let (matches, m) := sscanf_u l3 0 in
    if negb (matches =? 1) then Returns (None, [])
    else if m >? 255 then Returns (None, msg_range)
    else Returns
           (Some (mkheader ty w h m
                    (Z.of_nat
                       (List.length
                          (source_3 c0 (tag_of ty) ws1 c1 dims ws2 c2 l3 tail)
                        - List.length (skip_ws tail)))), []).
Proof.
  intros Hc0 Hws1 Hc1 Hd Hws2 Hc2 Hl3 Hend Hdims.
  destruct (tag_of_line ty) as [Htag Hty].
  destruct (readline_source_2 c0 c1 (tag_of ty) ws1 dims
              (NL :: ws2 ++ source_1 c2 l3 tail) junk) as [R1 R2]; auto.
  rewrite skip_ws_next_line in R2 by auto.
  pose proof (readline_source_1 c2 l3 tail dims Hc2 Hl3 Hend) as R3.
  unfold load_header, source_3. rewrite R1. cbn [bind].
  rewrite Hty, R2. cbn [bind]. rewrite Hdims. cbn [Z.eqb Pos.eqb negb].
  rewrite R3. cbn [bind]. reflexivity.
Qed.

Lemma dims_two_numbers (dims : list ascii) :
  begins_with_two_numbers (cstr dims) = true ->
  exists w h, sscanf_u_u dims 0 0 = (2, w, h).
Proof.
  intros H. apply (sscanf_u_u_two dims 0 0) in H.
  destruct (sscanf_u_u dims 0 0) as [[matches w] h]. cbn [fst] in H.
  subst matches. now exists w, h.
Qed.

(** A line of the maximum value that does not begin with a number. *)
Lemma load_header_source_maxval
  (junk : list ascii) (ty : PPM_TYPE) (c0 c1 c2 : list (list ascii))
  (ws1 dims ws2 l3 tail : list ascii) :
  forallb short_comment_line c0 = true -> forallb isspace ws1 = true ->
  forallb short_comment_line c1 = true -> header_line dims = true ->
  begins_with_two_numbers (cstr dims) = true ->
  forallb isspace ws2 = true -> forallb short_comment_line c2 = true ->
  header_line l3 = true -> line_end tail = true ->
  number_prefix (skip_ws (cstr l3)) = None ->
  load_header (Some (source_3 c0 (tag_of ty) ws1 c1 dims ws2 c2 l3 tail)) junk
  = Returns (None, []).
Proof.
  intros Hc0 Hws1 Hc1 Hd Hdims Hws2 Hc2 Hl3 Hend Hbad.
  destruct (dims_two_numbers dims Hdims) as (w & h & E).
  rewrite (load_header_source_3 junk ty c0 c1 c2 ws1 dims ws2 l3 tail w h)
    by auto.
  unfold sscanf_u. pose proof (scan_u_number_prefix (cstr l3)) as Hp.
  destruct (scan_u (cstr l3)) as [| |m rest]; try reflexivity.
  congruence.
Qed.

(** Digits, as [%u] converts them. *)
Lemma is_uint_inv (ds : list ascii) :
  is_uint ds = true ->
  ds <> [] /\ Forall (fun x => isdigit x = true) ds.
Proof.
  unfold is_uint. destruct ds as [|c l]; [discriminate|]. intros H.
  split; [discriminate|]. now apply Forall_forall, forallb_forall.
Qed.

Lemma value_of_nonneg (l : list ascii) :
  Forall (fun x => isdigit x = true) l ->
  forall a, 0 <= a -> 0 <= value_of l a.
Proof.
  induction 1 as [|c l Hc _ IH]; intros a Ha; [exact Ha|].
  cbn [value_of]. apply IH. unfold isdigit in Hc.
  apply andb_prop in Hc as [H1 _]. apply Z.leb_le in H1. lia.
Qed.

Lemma scan_u_digits (ws ds rest : list ascii) :
  forallb isspace ws = true -> is_uint ds = true ->
  value_of ds 0 < 2 ^ 32 -> no_digit_ahead rest = true ->
  scan_u (ws ++ ds ++ rest) = Converted (value_of ds 0) rest.
Proof.
  intros Hws Hds Hv Hrest. unfold scan_u.
  destruct (is_uint_inv ds Hds) as [Hne Hall].
  pose proof (value_of_nonneg ds Hall 0 ltac:(lia)) as Hpos.
  pose proof (scan_digits_app ds rest 0 Hall Hrest) as Hs.
  destruct ds as [|c l]; [congruence|].
  inversion Hall as [|? ? Hc _]; subst.
  rewrite skip_ws_app by exact Hws.
  rewrite skip_ws_starts_line
    by (cbn; now rewrite (isdigit_not_space c Hc)).
  cbn [app] in Hs |- *.
  pose proof (isdigit_not_sign c Hc) as Hsign.
  apply orb_false_elim in Hsign as [Hm Hp]. rewrite Hm, Hp. cbn [orb].
  rewrite Hc, Hs. f_equal.
  unfold strtoul_value, to_uint, ULONG_MAX.
  destruct (Z.gtb_spec (value_of (c :: l) 0) 18446744073709551615); [lia|].
  apply Z.mod_small. lia.
Qed.

Lemma cstr_app (a b' : list ascii) :
  ~ In NUL a -> cstr (a ++ b') = a ++ cstr b'.
Proof.
  induction a as [|c a IH]; intros H; [reflexivity|].
  cbn [app cstr]. destruct (Ascii.eqb_spec c NUL) as [->|_].
  - exfalso. apply H. now left.
  - f_equal. apply IH. intros Hin. apply H. now right.
Qed.

Lemma digits_no_NUL (ds : list ascii) :
  Forall (fun x => isdigit x = true) ds -> ~ In NUL ds.
Proof. now apply digits_exclude. Qed.

Lemma blanks_no_NUL (ws : list ascii) :
  forallb isspace ws = true -> ~ In NUL ws.
Proof.
  intros H Hin. rewrite forallb_forall in H. specialize (H _ Hin).
  discriminate H.
Qed.

Lemma no_digit_ahead_cstr (x : list ascii) :
  no_digit_ahead x = true -> no_digit_ahead (cstr x) = true.
Proof.
  destruct x as [|c x]; [reflexivity|]. cbn.
  destruct (Ascii.eqb c NUL); auto.
Qed.

Lemma isspace_not_digit (c : ascii) : isspace c = true -> isdigit c = false.
Proof.
  intros H. destruct (isdigit c) eqn:E; [|reflexivity].
  apply isdigit_not_space in E. congruence.
Qed.

(** [sscanf(line, "%u ", ...)] on a line that begins with digits. *)
Lemma sscanf_u_digits (dm y : list ascii) :
  is_uint dm = true -> no_digit_ahead y = true -> value_of dm 0 < 2 ^ 32 ->
  sscanf_u (dm ++ y) 0 = (1, value_of dm 0).
Proof.
  intros Hdm Hy Hv. unfold sscanf_u.
  rewrite cstr_app by (apply digits_no_NUL; now apply is_uint_inv).
  pose proof (scan_u_digits [] dm (cstr y) eq_refl Hdm Hv
                (no_digit_ahead_cstr y Hy)) as E.
  cbn [app] in E. now rewrite E.
Qed.

(** [sscanf(line, "%u %u", ...)] on a line that begins with two runs of
    digits separated by white space: what follows the second run plays no
    part. *)
Lemma sscanf_u_u_digits (d1 sep d2 x : list ascii) :
  is_uint d1 = true -> is_uint d2 = true ->
  sep <> [] -> forallb isspace sep = true -> no_digit_ahead x = true ->
  value_of d1 0 < 2 ^ 32 -> value_of d2 0 < 2 ^ 32 ->
  sscanf_u_u (d1 ++ sep ++ d2 ++ x) 0 0 = (2, value_of d1 0, value_of d2 0).
Proof.
  intros H1 H2 Hne Hsep Hx Hv1 Hv2. unfold sscanf_u_u.
  rewrite cstr_app by (apply digits_no_NUL; now apply is_uint_inv).
  rewrite cstr_app by now apply blanks_no_NUL.
  rewrite cstr_app by (apply digits_no_NUL; now apply is_uint_inv).
  assert (Hnd : no_digit_ahead (sep ++ d2 ++ cstr x) = true).
  { destruct sep as [|s sep]; [congruence|]. cbn in Hsep |- *.
    apply andb_prop in Hsep as [Hs _].
    now rewrite (isspace_not_digit s Hs). }
  pose proof (scan_u_digits [] d1 (sep ++ d2 ++ cstr x) eq_refl H1 Hv1 Hnd)
    as E1.
  cbn [app] in E1. rewrite E1, scan_u_skip_ws.
  now rewrite (scan_u_digits sep d2 (cstr x) Hsep H2 Hv2
                 (no_digit_ahead_cstr x Hx)).
Qed.

(** A line of the maximum value that begins with a number from 256 to
    4294967295. *)
Lemma load_header_source_range
  (junk : list ascii) (ty : PPM_TYPE) (c0 c1 c2 : list (list ascii))
  (ws1 dims ws2 dm y tail : list ascii) :
  forallb short_comment_line c0 = true -> forallb isspace ws1 = true ->
  forallb short_comment_line c1 = true -> header_line dims = true ->
  begins_with_two_numbers (cstr dims) = true ->
  forallb isspace ws2 = true -> forallb short_comment_line c2 = true ->
  header_line (dm ++ y) = true -> line_end tail = true ->
  is_uint dm = true -> no_digit_ahead y = true ->
  255 < value_of dm 0 < 2 ^ 32 ->
  load_header (Some (source_3 c0 (tag_of ty) ws1 c1 dims ws2 c2 (dm ++ y) tail))
    junk
  = Returns (None, msg_range).
Proof.
  intros Hc0 Hws1 Hc1 Hd Hdims Hws2 Hc2 Hl3 Hend Hdm Hy Hv.
  destruct (dims_two_numbers dims Hdims) as (wd & ht & E).
  rewrite (load_header_source_3 junk ty c0 c1 c2 ws1 dims ws2
             (dm ++ y) tail wd ht) by assumption.
  rewrite sscanf_u_digits by (auto; lia).
  cbn [Z.eqb Pos.eqb negb].
  destruct (Z.gtb_spec (value_of dm 0) 255); [reflexivity | lia].
Qed.

(** Pixel data in which one of the [n] triples does not convert. *)
Lemma load_ascii_malformed (maxv : Z) :
  forall n i f pix,
    scan_triples n f = None -> load_ascii n i maxv f pix = None.
Proof.
  induction n as [|n IH]; intros i f pix H; [discriminate H|].
  cbn [scan_triples load_ascii] in H |- *.
  destruct (fscanf_u_u_u f) as [[matches [[r' g'] b']] f'].
  destruct (matches =? 3); [|reflexivity]. cbn [negb].
  destruct ((r' >? maxv) || (g' >? maxv) || (b' >? maxv)); [reflexivity|].
  apply IH. destruct (scan_triples n f'); [discriminate H | reflexivity].
Qed.

(** ** The header of a source laid out line by line *)

(** C8, as stated: a source whose first non-comment line, trimmed, is not
    a tag would fail.  [fscanf] stores the zero byte of the first line
    ["P6\0junk"] like any other character and [strcmp] stops at it: the
    line counts as the tag ["P6"] and the file is loaded as a 1x1
    image. *)
Lemma C8_tag_before_nul_accepted :
  hd [] (non_comment_lines src_tag_nul) = str "P6" ++ NUL :: str "junk"
  /\ trim (str "P6" ++ NUL :: str "junk") <> str "P6"
  /\ trim (str "P6" ++ NUL :: str "junk") <> str "P3"
  /\ forall (junk : list ascii) (heap : nat -> pixel_t),
       load_ppm (world_of src_tag_nul junk heap)
       = Returns (Some (mkimg 1 1 [mkpixel 97 98 99]), []).
Proof.
  split; [reflexivity|]. split; [discriminate|]. split; [discriminate|].
  intros junk heap. reflexivity.
Qed.

(** C8, amended: let the source begin with comment lines of at most 1024
    characters each, followed by a first line that is not a comment, is
    not empty, does not begin with white space, has at most 1024
    characters and is ended by a newline or by the end of the file.  When
    that line, read up to its first zero byte if it has one, is neither
    ["P3"] nor ["P6"] exactly (nothing is trimmed: a tag followed by a
    blank is not a tag), load fails: it returns [NULL] and the message
    about the unsupported format is on [stderr]. *)
Theorem C8_unsupported_format
  (w : world) (c0 : list (list ascii)) (l1 tail : list ascii) :
  file w = Some (source_1 c0 l1 tail) ->
  forallb short_comment_line c0 = true ->
  header_line l1 = true -> line_end tail = true ->
  cstr l1 <> str "P3" -> cstr l1 <> str "P6" ->
  load_ppm w = Returns (None, msg_format).
Proof.
  intros Hfile Hc0 Hl1 Hend H3 H6. unfold load_ppm. rewrite Hfile.
  rewrite load_header_source_tag by assumption. reflexivity.
Qed.

Lemma C8_unsupported_format_witness :
  load_ppm (world_of src_tag_P5 [] (fun _ => pixel0)) = Returns (None, msg_format).
Proof.
  apply (C8_unsupported_format _ [str "# grey"] (str "P5")
           (NL :: str "1 1" ++ [NL] ++ str "255" ++ [NL] ++ str "a")).
  - reflexivity.
  - reflexivity.
  - reflexivity.
  - reflexivity.
  - discriminate.
  - discriminate.
Defined.

(** C9, as stated: a source whose line of the maximum value parses as a
    number above 255 would fail.  Here that line is ["256"], but the
    comment line before it has 1027 characters: [readline] takes its first
    1024 characters for the comment and its last three, ["255"], for the
    line of the maximum value.  The header is accepted and the line
    ["256"] is read as the pixel. *)
Lemma C9_long_comment_hides_maxval :
  nth 2 (non_comment_lines src_long_comment_256) [] = str "256"
  /\ is_uint (str "256") = true /\ value_of (str "256") 0 = 256
  /\ forall (junk : list ascii) (heap : nat -> pixel_t),
       load_ppm (world_of src_long_comment_256 junk heap)
       = Returns (Some (mkimg 1 1 [mkpixel 50 53 54]), []).
Proof.
  split; [vm_compute; reflexivity|]. split; [reflexivity|].
  split; [reflexivity|]. intros junk heap. vm_compute. reflexivity.
Qed.

(** C9, amended: let the source be laid out line by line: comment lines
    of at most 1024 characters each may precede the tag line, the
    dimensions line and the line of the maximum value; the tag line is
    ["P3"] or ["P6"]; the dimensions line begins with two numbers; each of
    the two is followed by a newline and, possibly, further white space.
    When the line of the maximum value begins with decimal digits that
    denote a number from 256 to 4294967295, load fails: it returns [NULL]
    and the message about the component size is on [stderr]. *)
Theorem C9_unsupported_range
  (w : world) (ty : PPM_TYPE) (c0 c1 c2 : list (list ascii))
  (ws1 dims ws2 dm y tail : list ascii) :
  file w = Some (source_3 c0 (tag_of ty) ws1 c1 dims ws2 c2 (dm ++ y) tail) ->
  forallb short_comment_line c0 = true -> forallb isspace ws1 = true ->
  forallb short_comment_line c1 = true -> header_line dims = true ->
  begins_with_two_numbers (cstr dims) = true ->
  forallb isspace ws2 = true -> forallb short_comment_line c2 = true ->
  header_line (dm ++ y) = true -> line_end tail = true ->
  is_uint dm = true -> no_digit_ahead y = true ->
  255 < value_of dm 0 < 2 ^ 32 ->
  load_ppm w = Returns (None, msg_range).
Proof.
  intros Hfile Hc0 Hws1 Hc1 Hd Hdims Hws2 Hc2 Hl3 Hend Hdm Hy Hv.
  unfold load_ppm. rewrite Hfile.
  rewrite load_header_source_range by assumption. reflexivity.
Qed.

Lemma C9_unsupported_range_witness :
  load_ppm (world_of src_maxval_256 [] (fun _ => pixel0)) = Returns (None, msg_range).
Proof.
  apply (C9_unsupported_range _ PPM_RAW [] [] [] [] (str "1 1") []
           (str "256") [] (NL :: str "abc")); try reflexivity.
  split; reflexivity.
Defined.

(** C4, amended: let the source be laid out line by line: comment lines
    of at most 1024 characters each, the tag line ["P3"] or ["P6"], a
    newline and possibly further white space, comment lines again, then
    the dimensions line: not empty, not beginning with white space, of at
    most 1024 characters, ended by a newline or the end of the file.
    When the dimensions line does not begin with two numbers (a number,
    optional white space, a second number; a number being an optional
    sign and digits), header parsing fails: [NULL], nothing printed.  When
    it begins with two runs of digits separated by white space, what
    follows the second run is ignored: with a line of the maximum value
    after it that begins with a number up to 255, the header is accepted
    with these two numbers as width and height, whatever text the
    dimensions line goes on with. *)
Theorem C4_malformed_dimensions
  (junk : list ascii) (ty : PPM_TYPE) (c0 c1 : list (list ascii))
  (ws1 dims tail : list ascii) :
  forallb short_comment_line c0 = true -> forallb isspace ws1 = true ->
  forallb short_comment_line c1 = true -> header_line dims = true ->
  line_end tail = true ->
  (begins_with_two_numbers (cstr dims) = false ->
   load_header (Some (source_2 c0 (tag_of ty) ws1 c1 dims tail)) junk
   = Returns (None, []))
  /\ (forall (d1 sep d2 x ws2 : list ascii) (c2 : list (list ascii))
             (dm y rest : list ascii),
        dims = d1 ++ sep ++ d2 ++ x ->
        is_uint d1 = true -> is_uint d2 = true ->
        sep <> [] -> forallb isspace sep = true -> no_digit_ahead x = true ->
        value_of d1 0 < 2 ^ 32 -> value_of d2 0 < 2 ^ 32 ->
        tail = NL :: ws2 ++ source_1 c2 (dm ++ y) rest ->
        forallb isspace ws2 = true -> forallb short_comment_line c2 = true ->
        header_line (dm ++ y) = true -> line_end rest = true ->
        is_uint dm = true -> no_digit_ahead y = true ->
        value_of dm 0 <= 255 ->
        load_header (Some (source_2 c0 (tag_of ty) ws1 c1 dims tail)) junk
        = Returns
            (Some (mkheader ty (value_of d1 0) (value_of d2 0) (value_of dm 0)
                     (Z.of_nat
                        (List.length
                           (source_2 c0 (tag_of ty) ws1 c1 dims tail)
                         - List.length (skip_ws rest)))), [])).
Proof.
  intros Hc0 Hws1 Hc1 Hd Hend. split.
  - intros Hbad. now apply load_header_source_dims.
  - intros d1 sep d2 x ws2 c2 dm y rest Edims H1 H2 Hne Hsep Hx Hv1 Hv2
      Etail Hws2 Hc2 Hl3 Hrest Hdm Hy Hm.
    pose proof (sscanf_u_u_digits d1 sep d2 x H1 H2 Hne Hsep Hx Hv1 Hv2)
      as Hscan.
    rewrite <- Edims in Hscan. rewrite Etail.
    change (source_2 c0 (tag_of ty) ws1 c1 dims
              (NL :: ws2 ++ source_1 c2 (dm ++ y) rest))
      with (source_3 c0 (tag_of ty) ws1 c1 dims ws2 c2 (dm ++ y) rest).
    rewrite (load_header_source_3 junk ty c0 c1 c2 ws1 dims ws2 (dm ++ y)
               rest (value_of d1 0) (value_of d2 0)) by assumption.
    rewrite sscanf_u_digits by (auto; lia).
    cbn [Z.eqb Pos.eqb negb].
    destruct (Z.gtb_spec (value_of dm 0) 255); [lia | reflexivity].
Qed.

Lemma C4_malformed_dimensions_witness :
  load_header (Some src_one_dim) [] = Returns (None, [])
  /\ load_header (Some src_dims_trailing) []
     = Returns (Some (mkheader PPM_RAW 2 3 255 22), []).
Proof.
  split.
  - apply (proj1 (C4_malformed_dimensions [] PPM_RAW [] [] [] (str "640")
                    (NL :: str "255" ++ [NL])
                    eq_refl eq_refl eq_refl eq_refl eq_refl)).
    reflexivity.
  - apply (proj2 (C4_malformed_dimensions [] PPM_RAW [] [] []
                    (str "2 3 4 and more") (NL :: str "255" ++ [NL])
                    eq_refl eq_refl eq_refl eq_refl eq_refl)
             (str "2") (str " ") (str "3") (str " 4 and more") [] []
             (str "255") [] [NL]);
      try reflexivity; try discriminate; cbn; lia.
Defined.

(** C3, amended: a load that returns gives an image and prints nothing,
    or gives [NULL] and prints nothing, or gives [NULL] and prints one of
    two messages.  These failures give the same outcome, [NULL] and
    nothing printed: the file cannot be opened; in a source laid out line
    by line, the dimensions line does not begin with two numbers, or the
    line of the maximum value does not begin with a number; the header is
    accepted and an allocation fails; the header is accepted, the
    allocation succeeds and, in a text source, one of the triples does not
    convert or holds a value above the maximum.  Two failures are told
    apart by their message: in a source laid out line by line, a first
    line that is not a tag, and a maximum value from 256 to 4294967295.
    [write_ppm] returns a boolean, which is false exactly when the
    destination cannot be opened. *)
Theorem C3_failure_outcomes
  (w : world) (dst_ok : bool) (img : img_t) (ty : PPM_TYPE) :
  (load_ppm w = Diverges
   \/ (exists im, load_ppm w = Returns (Some im, []))
   \/ load_ppm w = Returns (None, [])
   \/ load_ppm w = Returns (None, msg_format)
   \/ load_ppm w = Returns (None, msg_range))
  /\ (file w = None -> load_ppm w = Returns (None, []))
  /\ (forall (t : PPM_TYPE) (c0 c1 : list (list ascii))
             (ws1 dims tail : list ascii),
        file w = Some (source_2 c0 (tag_of t) ws1 c1 dims tail) ->
        forallb short_comment_line c0 = true -> forallb isspace ws1 = true ->
        forallb short_comment_line c1 = true -> header_line dims = true ->
        line_end tail = true ->
        begins_with_two_numbers (cstr dims) = false ->
        load_ppm w = Returns (None, []))
  /\ (forall (t : PPM_TYPE) (c0 c1 c2 : list (list ascii))
             (ws1 dims ws2 l3 tail : list ascii),
        file w = Some (source_3 c0 (tag_of t) ws1 c1 dims ws2 c2 l3 tail) ->
        forallb short_comment_line c0 = true -> forallb isspace ws1 = true ->
        forallb short_comment_line c1 = true -> header_line dims = true ->
        begins_with_two_numbers (cstr dims) = true ->
        forallb isspace ws2 = true -> forallb short_comment_line c2 = true ->
        header_line l3 = true -> line_end tail = true ->
        number_prefix (skip_ws (cstr l3)) = None ->
        load_ppm w = Returns (None, []))
  /\ (forall h,
        load_header (file w) (stack_junk w) = Returns (Some h, []) ->
        alloc_img w (to_int (hwidth h)) (to_int (hheight h)) = None ->
        load_ppm w = Returns (None, []))
  /\ (forall h im content,
        file w = Some content ->
        load_header (file w) (stack_junk w) = Returns (Some h, []) ->
        alloc_img w (to_int (hwidth h)) (to_int (hheight h)) = Some im ->
        type h = PPM_ASCII ->
        let n := Z.to_nat (to_uint (hwidth h * hheight h)) in
        let data := skipn (Z.to_nat (data_offset h)) content in
        scan_triples n data = None
        \/ (exists k ts, (k <= n)%nat /\ scan_triples k data = Some ts
                         /\ existsb (exceeds (maxval h)) ts = true) ->
        load_ppm w = Returns (None, []))
  /\ (forall (c0 : list (list ascii)) (l1 tail : list ascii),
        file w = Some (source_1 c0 l1 tail) ->
        forallb short_comment_line c0 = true ->
        header_line l1 = true -> line_end tail = true ->
        cstr l1 <> str "P3" -> cstr l1 <> str "P6" ->
        load_ppm w = Returns (None, msg_format))
  /\ (forall (t : PPM_TYPE) (c0 c1 c2 : list (list ascii))
             (ws1 dims ws2 dm y tail : list ascii),
        file w
        = Some (source_3 c0 (tag_of t) ws1 c1 dims ws2 c2 (dm ++ y) tail) ->
        forallb short_comment_line c0 = true -> forallb isspace ws1 = true ->
        forallb short_comment_line c1 = true -> header_line dims = true ->
        begins_with_two_numbers (cstr dims) = true ->
        forallb isspace ws2 = true -> forallb short_comment_line c2 = true ->
        header_line (dm ++ y) = true -> line_end tail = true ->
        is_uint dm = true -> no_digit_ahead y = true ->
        255 < value_of dm 0 < 2 ^ 32 ->
        load_ppm w = Returns (None, msg_range))
  /\ fst (write_ppm dst_ok img ty) = dst_ok.
Proof.
  split; [|split; [|split; [|split; [|split; [|split; [|split; [|split]]]]]]].
  - unfold load_ppm.
    destruct (load_header_outcomes (file w) (stack_junk w))
      as [H|[(h & H)|[H|[H|H]]]]; rewrite H; cbn [bind]; auto 6.
    destruct (alloc_img w (to_int (hwidth h)) (to_int (hheight h))) as [i|];
      [|auto].
    destruct (file w) as [content|]; [|auto].
    destruct (type h).
    + right; left. eexists. reflexivity.
    + destruct (load_ascii _ _ _ _ _); [|auto].
      right; left. eexists. reflexivity.
  - intros Hfile. unfold load_ppm, load_header. now rewrite Hfile.
  - intros t c0 c1 ws1 dims tail Hfile Hc0 Hws1 Hc1 Hd Hend Hbad.
    unfold load_ppm. rewrite Hfile.
    now rewrite load_header_source_dims.
  - intros t c0 c1 c2 ws1 dims ws2 l3 tail Hfile Hc0 Hws1 Hc1 Hd Hdims Hws2
      Hc2 Hl3 Hend Hbad.
    unfold load_ppm. rewrite Hfile.
    now rewrite load_header_source_maxval.
  - intros h Hh Halloc. unfold load_ppm. rewrite Hh. cbn [bind].
    now rewrite Halloc.
  - intros h im content Hfile Hh Halloc Hty n data Hdata.
    unfold load_ppm. rewrite Hh. cbn [bind]. rewrite Halloc, Hfile, Hty.
    fold n data.
    destruct Hdata as [Hnone|(k & ts & Hk & Hts & Hex)].
    + now rewrite (load_ascii_malformed (maxval h) n 0 data (pix1d im) Hnone).
    + now rewrite (load_ascii_exceeds (maxval h) k n 0 data (pix1d im) ts
                     Hk Hts Hex).
  - intros c0 l1 tail Hfile Hc0 Hl1 Hend H3 H6.
    unfold load_ppm. rewrite Hfile.
    now rewrite load_header_source_tag.
  - intros t c0 c1 c2 ws1 dims ws2 dm y tail Hfile Hc0 Hws1 Hc1 Hd Hdims
      Hws2 Hc2 Hl3 Hend Hdm Hy Hv.
    unfold load_ppm. rewrite Hfile.
    now rewrite load_header_source_range.
  - unfold write_ppm. destruct dst_ok, ty; reflexivity.
Qed.

Lemma C3_failure_outcomes_witness :
  load_ppm (world_of src_bad_dims [] (fun _ => pixel0)) = Returns (None, [])
  /\ load_ppm (world_of src_bad_maxval [] (fun _ => pixel0)) = Returns (None, []).
Proof.
  split.
  - apply (proj1 (proj2 (proj2
             (C3_failure_outcomes (world_of src_bad_dims [] (fun _ => pixel0))
                true img_1x1 PPM_RAW)))
             PPM_ASCII [] [] [] (str "x y")
             (NL :: str "255" ++ [NL] ++ str "1 2 3 ")); reflexivity.
  - apply (proj1 (proj2 (proj2 (proj2
             (C3_failure_outcomes (world_of src_bad_maxval [] (fun _ => pixel0))
                true img_1x1 PPM_RAW))))
             PPM_RAW [] [] [] [] (str "1 1") [] (str "max")
             (NL :: str "abc")); reflexivity.
Defined.

(** X3: [readline] skips comments.  When the stream holds comment lines
    that fit the buffer, then a non-empty line of at most 1024 characters
    that begins with neither white space nor ['#'], then a newline,
    [readline] returns that line, without the newline, and leaves the
    stream at the next character that is not white space, or at its end
    when only white space is left. *)
Theorem readline_first_line (cs : list (list ascii)) (l rest line : list ascii) :
  forallb short_comment_line cs = true ->
  starts_line l = true -> Ascii.eqb (hd NUL l) "#"%char = false ->
  ~ In NL l -> (List.length l <= MAX_LENGTH)%nat ->
  readline MAX_LENGTH (comment_block cs ++ l ++ NL :: rest) line
  = Returns (l, skip_ws rest).
Proof.
  intros Hcs Hl Hhash Hnl Hlen.
  assert (Hst : starts_line (l ++ NL :: rest) = true)
    by (destruct l; [discriminate Hl | exact Hl]).
  destruct (readline_comment_block MAX_LENGTH MAX_LENGTH_pos cs _
              (short_comment_lines cs Hcs) Hst) as [_ ->].
  exact (readline_line_end MAX_LENGTH l (NL :: rest) line
           (starts_line_nonempty l Hl) Hhash Hnl Hlen eq_refl).
Qed.

Lemma readline_first_line_witness :
  readline MAX_LENGTH
    (comment_block [str "# made by hand"; str "#"] ++ str "P6"
       ++ NL :: [NL; " "%char] ++ str "1 1") []
  = Returns (str "P6", str "1 1").
Proof.
  apply (readline_first_line [str "# made by hand"; str "#"] (str "P6")
           ([NL; " "%char] ++ str "1 1") []).
  - reflexivity.
  - reflexivity.
  - reflexivity.
  - cbn. intuition discriminate.
  - apply Nat.leb_le. reflexivity.
Defined.

(** ** readline *)

(** X1: the line that [readline] returns never begins with ['#'].  It is
    either the buffer as it was on entry (nothing could be read) or a
    non-empty text without newline of at most [max_line_length]
    characters: a buffer of [max_line_length + 1] bytes is never
    overrun. *)
Theorem readline_result_fits (N : nat) (f line l f' : list ascii) :
  readline N f line = Returns (l, f') ->
  Ascii.eqb (hd NUL l) "#"%char = false
  /\ (l = line \/ (l <> [] /\ ~ In NL l /\ (List.length l <= N)%nat))
  /\ ((List.length line <= N)%nat -> (List.length l <= N)%nat).
Proof.
  intros H.
  assert (Hmain :
    Ascii.eqb (hd NUL l) "#"%char = false
    /\ (l = line \/ (l <> [] /\ ~ In NL l /\ (List.length l <= N)%nat))).
  { refine (readline_ind N
              (fun f line x =>
                 Ascii.eqb (hd NUL (fst x)) "#"%char = false
                 /\ (fst x = line
                     \/ (fst x <> [] /\ ~ In NL (fst x)
                         /\ (List.length (fst x) <= N)%nat)))
              _ _ f line (l, f') H).
    - intros f0 line0 line1 f1 Hscan Hhash. cbn [fst]. split; [exact Hhash|].
      unfold fscanf_line in Hscan.
      destruct (scan_line N f0) as [m rest] eqn:E.
      apply scan_line_split in E as (_ & Hlen & Hnl & _).
      destruct m as [|c m]; injection Hscan as <- _; [now left|].
      right. repeat split; auto. discriminate.
    - intros f0 line0 line1 f1 [l0 f0'] Hscan Hhash _ [Hh IH]. cbn [fst] in *.
      split; [exact Hh|]. right.
      destruct IH as [->|IH]; [congruence | exact IH]. }
  destruct Hmain as [Hh Hl]. repeat split; auto.
  intros Hline. destruct Hl as [->|(_ & _ & Hlen)]; assumption.
Qed.

Lemma readline_result_fits_witness :
  (List.length (str "P6") <= MAX_LENGTH)%nat.
Proof.
  refine (proj2 (proj2 (readline_result_fits MAX_LENGTH src_two_comments []
                          (str "P6") (str "1 1") _)) _).
  - reflexivity.
  - cbn. lia.
Defined.

(** X2: a stream made of comment lines that fit the buffer, then white
    space up to the end of the file, makes the loop of [readline] spin
    forever, whatever the fuel; a file like that is never loaded and
    [load_ppm] does not return. *)
Theorem readline_trailing_comments_diverge
  (c : list ascii) (cs : list (list ascii)) (ws junk : list ascii) (w : world) :
  forallb short_comment_line (c :: cs) = true ->
  forallb isspace ws = true ->
  file w = Some (comment_block (c :: cs) ++ ws) ->
  (forall fuel,
      readline_loop fuel MAX_LENGTH (comment_block (c :: cs) ++ ws) junk
      = Diverges)
  /\ load_ppm w = Diverges.
Proof.
  intros Hcs Hws Hfile.
  assert (Hdiv : forall line,
             readline MAX_LENGTH (comment_block (c :: cs) ++ ws) line = Diverges).
  { clear Hfile. revert c Hcs.
    induction cs as [|c' cs IH]; intros c Hcs line.
    - cbn [forallb] in Hcs. apply andb_prop in Hcs as [Hc _].
      unfold short_comment_line in Hc. apply andb_prop in Hc as [Hc Hlen].
      apply Nat.leb_le in Hlen. unfold comment_line in Hc.
      apply andb_prop in Hc as [Hhash Hnl].
      cbn [comment_block flat_map]. rewrite app_nil_r, <- app_assoc.
      rewrite readline_unfold. unfold fscanf_line.
      rewrite (scan_line_intro MAX_LENGTH c ([NL] ++ ws) Hlen).
      + destruct c as [|x c0]; [discriminate Hhash|].
        rewrite Hhash.
        change (skip_ws ([NL] ++ ws)) with (skip_ws ws).
        assert (Hnil : skip_ws ws = [])
          by (rewrite <- (app_nil_r ws); now rewrite skip_ws_app).
        rewrite Hnil, readline_nil, Hhash. reflexivity.
      + intros Hin. rewrite forallb_forall in Hnl.
        specialize (Hnl _ Hin). now rewrite Ascii.eqb_refl in Hnl.
      + right; right. now eexists.
    - cbn [forallb] in Hcs. apply andb_prop in Hcs as [Hc Hrest].
      specialize (IH c' Hrest).
      unfold short_comment_line in Hc. apply andb_prop in Hc as [Hc Hlen].
      apply Nat.leb_le in Hlen. unfold comment_line in Hc.
      apply andb_prop in Hc as [Hhash Hnl].
      change (comment_block (c :: c' :: cs))
        with ((c ++ [NL]) ++ comment_block (c' :: cs)).
      rewrite <- !app_assoc.
      rewrite readline_unfold. unfold fscanf_line.
      rewrite (scan_line_intro MAX_LENGTH c
                 ([NL] ++ comment_block (c' :: cs) ++ ws) Hlen).
      + destruct c as [|x c0]; [discriminate Hhash|].
        rewrite Hhash.
        change (skip_ws ([NL] ++ comment_block (c' :: cs) ++ ws))
          with (skip_ws (comment_block (c' :: cs) ++ ws)).
        assert (Hst : starts_line (comment_block (c' :: cs) ++ ws) = true).
        { apply andb_prop in Hrest as [Hc' _].
          unfold short_comment_line, comment_line in Hc'.
          apply andb_prop in Hc' as [Hc' _]. apply andb_prop in Hc' as [Hh' _].
          destruct c' as [|y c1]; [discriminate Hh'|].
          cbn in Hh'. apply Ascii.eqb_eq in Hh'. subst y. reflexivity. }
        rewrite (skip_ws_starts_line _ Hst). apply IH.
      + intros Hin. rewrite forallb_forall in Hnl.
        specialize (Hnl _ Hin). now rewrite Ascii.eqb_refl in Hnl.
      + right; right. now eexists. }
  split.
  - intros fuel. apply readline_diverges_forever, Hdiv.
  - unfold load_ppm, load_header. rewrite Hfile, Hdiv. reflexivity.
Qed.

Lemma readline_trailing_comments_diverge_witness :
  load_ppm (world_of src_only_comments [] (fun _ => pixel0)) = Diverges.
Proof.
  refine (proj2 (readline_trailing_comments_diverge (str "# nothing else") []
                   [NL; " "%char] [] _ _ _ _)); reflexivity.
Defined.

(** ** load_header *)

Lemma scan_u_range (s : list ascii) (v : Z) (rest : list ascii) :
  scan_u s = Converted v rest -> 0 <= v < 2 ^ 32.
Proof.
  unfold scan_u. destruct (skip_ws s) as [|c s1]; [discriminate|].
  destruct (if Ascii.eqb c "-"%char || Ascii.eqb c "+"%char then s1 else c :: s1)
    as [|d s2]; [discriminate|].
  destruct (isdigit d); [|discriminate].
  destruct (scan_digits (d :: s2) 0) as [v0 rest0].
  intros H. injection H as <- _. unfold to_uint.
  apply Z.mod_pos_bound. reflexivity.
Qed.

Lemma sscanf_u_u_range (line : list ascii) (w h : Z) :
  sscanf_u_u line 0 0 = (2, w, h) -> 0 <= w < 2 ^ 32 /\ 0 <= h < 2 ^ 32.
Proof.
  unfold sscanf_u_u.
  destruct (scan_u (cstr line)) as [| |w' s1] eqn:E1; try discriminate.
  destruct (scan_u (skip_ws s1)) as [| |h' s2] eqn:E2; try discriminate.
  intros H. injection H as <- <-.
  split; eapply scan_u_range; eauto.
Qed.

Lemma sscanf_u_range (line : list ascii) (m : Z) :
  sscanf_u line 0 = (1, m) -> 0 <= m < 2 ^ 32.
Proof.
  unfold sscanf_u.
  destruct (scan_u (cstr line)) as [| |m' s1] eqn:E1; try discriminate.
  intros H. injection H as <-. eapply scan_u_range; eauto.
Qed.

(** X4: a header that [load_header] accepts comes with nothing on
    [stderr]; its width and height are values of [unsigned int], its
    maximum value lies between 0 and 255, and its data offset lies within
    the file, at the end of the file or at a byte that is not white space
    (the white space that follows the header is never pixel data). *)
Theorem load_header_accepted
  (content junk : list ascii) (hdr : ppm_header_t) (err : list ascii) :
  load_header (Some content) junk = Returns (Some hdr, err) ->
  err = []
  /\ 0 <= hwidth hdr < 2 ^ 32 /\ 0 <= hheight hdr < 2 ^ 32
  /\ 0 <= maxval hdr <= 255
  /\ 0 <= data_offset hdr <= Z.of_nat (List.length content)
  /\ (skipn (Z.to_nat (data_offset hdr)) content = []
      \/ starts_line (skipn (Z.to_nat (data_offset hdr)) content) = true).
Proof.
  intros Hacc.
  destruct (load_header_inv _ _ _ _ Hacc)
    as (l1 & f1 & l2 & f2 & l3 & f3 & ty & w & h & m
        & H1 & Hty & H2 & Hd & H3 & Hm & Hle & -> & ->).
  destruct (readline_suffix _ _ _ _ _ H1) as [(a1 & E1) _].
  destruct (readline_suffix _ _ _ _ _ H2) as [(a2 & E2) _].
  destruct (readline_suffix _ _ _ _ _ H3) as [(a3 & E3) St3].
  destruct (sscanf_u_u_range _ _ _ Hd) as [Hw Hh].
  pose proof (sscanf_u_range _ _ Hm) as Hm0.
  assert (Ec : content = (a1 ++ a2 ++ a3) ++ f3)
    by (rewrite E1, E2, E3, <- !app_assoc; reflexivity).
  cbn [hwidth hheight maxval data_offset].
  split; [reflexivity|]. split; [exact Hw|]. split; [exact Hh|]. split.
  { destruct (Z.gtb_spec m 255); [discriminate | lia]. }
  split; [lia|].
  assert (Hskip : skipn (List.length content - List.length f3) content = f3).
  { rewrite Ec. exact (proj2 (insert_at_suffix (a1 ++ a2 ++ a3) f3 [])). }
  rewrite Nat2Z.id, Hskip. exact St3.
Qed.

Lemma load_header_accepted_witness :
  0 <= maxval (mkheader PPM_ASCII 2 1 255 17) <= 255.
Proof.
  refine (proj1 (proj2 (proj2 (proj2 (load_header_accepted src_commented []
                   (mkheader PPM_ASCII 2 1 255 17) [] _))))).
  reflexivity.
Defined.

Lemma readline_first_read (N : nat) (c : ascii) (f line line' : list ascii) :
  (0 < N)%nat -> c <> NL ->
  readline N (c :: f) line = readline N (c :: f) line'.
Proof.
  intros HN Hc.
  rewrite (readline_unfold N (c :: f) line), (readline_unfold N (c :: f) line').
  unfold fscanf_line. destruct N as [|k]; [lia|]. cbn [scan_line].
  destruct (Ascii.eqb_spec c NL) as [E|_]; [contradiction|].
  destruct (scan_line k f) as [m rest]. reflexivity.
Qed.

(** X5: the array [line] of [load_header] is not initialised, but what it
    holds is only looked at when the file is empty or begins with a
    newline: for every other file the result of [load_ppm] does not depend
    on it. *)
Theorem load_ppm_ignores_stack_junk
  (w : world) (c : ascii) (rest junk' : list ascii) :
  file w = Some (c :: rest) -> c <> NL ->
  load_ppm (mkworld (file w) junk' (malloc_ok w) (heap_junk w)) = load_ppm w.
Proof.
  intros Hfile Hc. unfold load_ppm, load_header, alloc_img.
  cbn [file stack_junk malloc_ok heap_junk]. rewrite Hfile.
  now rewrite (readline_first_read MAX_LENGTH c rest junk' (stack_junk w)
                 MAX_LENGTH_pos Hc).
Qed.

Lemma load_ppm_ignores_stack_junk_witness :
  load_ppm (world_of src_text_2x1 (str "#junk") (fun _ => pixel0))
  = load_ppm (world_of src_text_2x1 [] (fun _ => pixel0)).
Proof.
  apply (load_ppm_ignores_stack_junk (world_of src_text_2x1 [] (fun _ => pixel0))
           "P"%char (tl src_text_2x1) (str "#junk")).
  - reflexivity.
  - discriminate.
Defined.

(** X6: an empty file is never loaded.  Nothing can be read, the line
    compared with the tags is what the array [line] held on entry: when
    that begins with ['#'] the loop of [readline] never ends; when it is a
    tag it is also taken for the dimensions line, which fails silently;
    otherwise the format is reported as unsupported.  A file that cannot
    be opened gives [NULL] and no message. *)
Theorem load_ppm_empty_file (w : world) :
  (file w = Some [] ->
   load_ppm w =
   if Ascii.eqb (hd NUL (stack_junk w)) "#"%char then Diverges
   else if strcmp_eq (str "P3") (stack_junk w)
           || strcmp_eq (str "P6") (stack_junk w)
        then Returns (None, [])
        else Returns (None, msg_format))
  /\ (file w = None -> load_ppm w = Returns (None, [])).
Proof.
  split; intros Hfile; unfold load_ppm, load_header; rewrite Hfile;
    [|reflexivity].
  rewrite !readline_nil.
  destruct (Ascii.eqb (hd NUL (stack_junk w)) "#"%char) eqn:Hh; [reflexivity|].
  cbn [bind]. destruct (strcmp_eq (str "P3") (stack_junk w)) eqn:E3.
  - rewrite readline_nil, Hh. cbn [bind orb].
    unfold sscanf_u_u. rewrite (strcmp_eq_P3 _ E3). reflexivity.
  - destruct (strcmp_eq (str "P6") (stack_junk w)) eqn:E6; [|reflexivity].
    rewrite readline_nil, Hh. cbn [bind orb].
    unfold sscanf_u_u. rewrite (strcmp_eq_P6 _ E6). reflexivity.
Qed.

Lemma load_ppm_empty_file_witness :
  load_ppm (mkworld (Some []) (str "P6") (fun _ => true) (fun _ => pixel0))
  = Returns (None, []).
Proof.
  exact (proj1 (load_ppm_empty_file
                  (mkworld (Some []) (str "P6") (fun _ => true) (fun _ => pixel0)))
               eq_refl).
Defined.

(** ** alloc_img and the pixel loops of load_ppm *)

Lemma to_int_mod (z : Z) : to_int z mod 2 ^ 32 = z mod 2 ^ 32.
Proof.
  unfold to_int. rewrite Zminus_mod_idemp_l. f_equal. lia.
Qed.

Lemma pixel_bytes_bound (p : Z) :
  - 2 ^ 62 <= p <= 2 ^ 62 -> 3 * (p mod 2 ^ 32) <= (3 * p) mod 2 ^ 64.
Proof.
  intros Hp.
  pose proof (Z.mod_pos_bound p (2 ^ 32) eq_refl) as Hm.
  destruct (Z_lt_le_dec p 0) as [Hneg|Hpos].
  - replace ((3 * p) mod 2 ^ 64) with (3 * p + 2 ^ 64).
    + lia.
    + apply Z.mod_unique with (-1); lia.
  - rewrite (Z.mod_small (3 * p)) by lia.
    pose proof (Z.mod_le p (2 ^ 32) Hpos eq_refl). lia.
Qed.

(** X7: the pixel loops of [load_ppm] stay inside the block that [malloc]
    granted for [pix1d].  They touch pixels [0 .. n-1], [n] being the
    product of the header's width and height in [unsigned int]; the block
    was asked for with the product of the same numbers converted to [int],
    computed in [size_t]: whatever the header, three bytes times [n] never
    exceed that size. *)
Theorem load_ppm_stays_in_pix1d
  (w : world) (content junk : list ascii) (hdr : ppm_header_t)
  (err : list ascii) (img : img_t) :
  load_header (Some content) junk = Returns (Some hdr, err) ->
  alloc_img w (to_int (hwidth hdr)) (to_int (hheight hdr)) = Some img ->
  let granted :=
    to_ulong (to_ulong (sizeof_pixel_t * to_int (hwidth hdr))
              * to_int (hheight hdr)) in
  malloc_ok w granted = true
  /\ sizeof_pixel_t * to_uint (hwidth hdr * hheight hdr) <= granted.
Proof.
  intros Hacc Halloc granted.
  destruct (load_header_inv _ _ _ _ Hacc)
    as (l1 & f1 & l2 & f2 & l3 & f3 & ty & wd & ht & m
        & _ & _ & _ & Hd & _ & _ & _ & -> & _).
  destruct (sscanf_u_u_range _ _ _ Hd) as [Hw Hh].
  cbn [hwidth hheight] in *. split.
  - unfold alloc_img in Halloc.
    destruct (malloc_ok w sizeof_img_t); [|discriminate].
    cbn [negb] in Halloc. fold granted in Halloc.
    destruct (malloc_ok w granted); [reflexivity | discriminate].
  - pose proof (to_int_range wd) as Rw. pose proof (to_int_range ht) as Rh.
    assert (Hn : to_uint (wd * ht) = (to_int wd * to_int ht) mod 2 ^ 32).
    { unfold to_uint.
      rewrite (Z.mul_mod (to_int wd)), !to_int_mod, <- Z.mul_mod by lia.
      reflexivity. }
    assert (Hg : granted = (3 * (to_int wd * to_int ht)) mod 2 ^ 64).
    { unfold granted, to_ulong, sizeof_pixel_t.
      rewrite Z.mul_mod_idemp_l by lia. f_equal. lia. }
    rewrite Hn, Hg. unfold sizeof_pixel_t.
    apply pixel_bytes_bound. nia.
Qed.

Lemma load_ppm_stays_in_pix1d_witness :
  3 * to_uint (2 * 1) <= to_ulong (to_ulong (3 * to_int 2) * to_int 1).
Proof.
  exact (proj2 (load_ppm_stays_in_pix1d (world_of src_commented [] (fun _ => pixel0))
                  src_commented [] (mkheader PPM_ASCII 2 1 255 17) []
                  (mkimg 2 1 [pixel0; pixel0]) eq_refl eq_refl)).
Defined.

Lemma load_raw_after :
  forall n i f pix j, (i + n <= j)%nat ->
    nth j (load_raw n i f pix) pixel0 = nth j pix pixel0.
Proof.
  induction n as [|n IH]; intros i f pix j Hj; [reflexivity|].
  cbn [load_raw].
  destruct (fread1 f _) as [r' f1], (fread1 f1 _) as [g' f2],
           (fread1 f2 _) as [b' f3].
  rewrite IH by lia. apply store_nth_other. lia.
Qed.

Lemma fscanf_u_u_u_range (f f' : list ascii) (r' g' b' : Z) :
  fscanf_u_u_u f = (3, (r', g', b'), f') ->
  0 <= r' < 2 ^ 32 /\ 0 <= g' < 2 ^ 32 /\ 0 <= b' < 2 ^ 32.
Proof.
  unfold fscanf_u_u_u.
  destruct (scan_u f) as [| |r0 f1] eqn:E1; try discriminate.
  destruct (scan_u (skip_ws f1)) as [| |g0 f2] eqn:E2; try discriminate.
  destruct (scan_u (skip_ws f2)) as [| |b0 f3] eqn:E3; try discriminate.
  intros H. injection H as <- <- <- _.
  repeat split; eapply scan_u_range; eauto.
Qed.

(** What the text loop leaves in the buffer: the triples converted, one
    per pixel from index [i] on, and the rest as it was. *)
Lemma load_ascii_triples (maxv : Z) :
  maxv <= 255 ->
  forall n i f buf ts,
    scan_triples n f = Some ts ->
    existsb (exceeds maxv) ts = false ->
    exists buf',
      load_ascii n i maxv f buf = Some buf'
      /\ List.length buf' = List.length buf
      /\ (forall j, (j < i)%nat -> nth j buf' pixel0 = nth j buf pixel0)
      /\ (forall k, (k < n)%nat -> (i + k < List.length buf)%nat ->
            nth (i + k) buf' pixel0 = triple_pixel (nth k ts (0, 0, 0)))
      /\ (forall j, (i + n <= j)%nat -> nth j buf' pixel0 = nth j buf pixel0).
Proof.
  intros Hmax. induction n as [|n IH]; intros i f buf ts Hts Hex.
  - exists buf. repeat split; auto. intros k Hk. lia.
  - cbn in Hts |- *.
    destruct (fscanf_u_u_u f) as [[matches [[r' g'] b']] f'] eqn:Hscan.
    destruct (Z.eqb_spec matches 3) as [->|]; [|discriminate]. cbn [negb].
    destruct (scan_triples n f') as [ts'|] eqn:E; [|discriminate].
    injection Hts as <-. cbn [existsb exceeds] in Hex.
    apply orb_false_elim in Hex as [Hex0 Hex].
    destruct (fscanf_u_u_u_range _ _ _ _ _ Hscan) as (Rr & Rg & Rb).
    rewrite Hex0.
    apply orb_false_elim in Hex0 as [Hex0 Hb].
    apply orb_false_elim in Hex0 as [Hr Hg].
    assert (r' <= maxv) by (destruct (Z.gtb_spec r' maxv); [discriminate | lia]).
    assert (g' <= maxv) by (destruct (Z.gtb_spec g' maxv); [discriminate | lia]).
    assert (b' <= maxv) by (destruct (Z.gtb_spec b' maxv); [discriminate | lia]).
    unfold to_uint8. rewrite !Z.mod_small by lia.
    destruct (IH (S i) f' (store i (mkpixel r' g' b') buf) ts' E Hex)
      as (buf' & Hload & Hlen & Hbefore & Hin & Hafter).
    exists buf'. split; [exact Hload|]. split; [now rewrite Hlen, store_length|].
    split; [|split].
    + intros j Hj. rewrite Hbefore by lia. apply store_nth_other. lia.
    + intros k Hk Hi. destruct k as [|k].
      * rewrite Nat.add_0_r in *. rewrite Hbefore by lia.
        rewrite store_nth_same by lia. reflexivity.
      * replace (i + S k)%nat with (S i + k)%nat by lia.
        rewrite Hin; [reflexivity | lia | rewrite store_length; lia].
    + intros j Hj. rewrite Hafter by lia. apply store_nth_other. lia.
Qed.

(** X8: decoding of a text source.  When the header is accepted and the
    [n] triples of numbers that follow convert, none above the maximum
    value, [load_ppm] returns the image whose first [n] pixels are these
    triples, in order; pixels from [n] on keep what the fresh buffer
    held. *)
Theorem load_ppm_text_pixels
  (w : world) (content : list ascii) (hdr : ppm_header_t) (img : img_t)
  (ts : list (Z * Z * Z)) :
  file w = Some content ->
  load_header (Some content) (stack_junk w) = Returns (Some hdr, []) ->
  type hdr = PPM_ASCII ->
  alloc_img w (to_int (hwidth hdr)) (to_int (hheight hdr)) = Some img ->
  let n := Z.to_nat (to_uint (hwidth hdr * hheight hdr)) in
  scan_triples n (skipn (Z.to_nat (data_offset hdr)) content) = Some ts ->
  existsb (exceeds (maxval hdr)) ts = false ->
  exists pix,
    load_ppm w = Returns (Some (mkimg (width img) (height img) pix), [])
    /\ List.length pix = List.length (pix1d img)
    /\ (forall k, (k < n)%nat -> (k < List.length pix)%nat ->
          nth k pix pixel0 = triple_pixel (nth k ts (0, 0, 0)))
    /\ (forall j, (n <= j)%nat -> nth j pix pixel0 = nth j (pix1d img) pixel0).
Proof.
  intros Hfile Hhdr Hty Halloc n Hts Hex.
  assert (Hmax : maxval hdr <= 255).
  { destruct (load_header_inv _ _ _ _ Hhdr)
      as (l1 & f1 & l2 & f2 & l3 & f3 & ty & wd & ht & m
          & _ & _ & _ & _ & _ & _ & Hle & -> & _).
    cbn. destruct (Z.gtb_spec m 255); [discriminate | lia]. }
  destruct (load_ascii_triples _ Hmax n 0%nat _ (pix1d img) ts Hts Hex)
    as (pix & Hload & Hlen & _ & Hin & Hafter).
  exists pix. split; [|split; [exact Hlen|split]].
  - unfold load_ppm. rewrite Hfile, Hhdr. cbn [bind]. rewrite Halloc, Hty.
    fold n. now rewrite Hload.
  - intros k Hk Hk'. apply (Hin k Hk). cbn. lia.
  - intros j Hj. apply Hafter. cbn. lia.
Qed.

Lemma load_ppm_text_pixels_witness :
  exists pix,
    load_ppm (world_of src_text_maxval_100 [] (fun _ => pixel0))
    = Returns (Some (mkimg 1 2 pix), [])
    /\ nth 1 pix pixel0 = mkpixel 100 0 7.
Proof.
  destruct (load_ppm_text_pixels
              (world_of src_text_maxval_100 [] (fun _ => pixel0))
              src_text_maxval_100 (mkheader PPM_ASCII 1 2 100 11)
              (mkimg 1 2 [pixel0; pixel0]) [(1, 2, 3); (100, 0, 7)]
              eq_refl eq_refl eq_refl eq_refl eq_refl eq_refl)
    as (pix & Hload & Hlen & Hin & _).
  exists pix. split; [exact Hload|].
  apply (Hin 1%nat); [vm_compute; lia | rewrite Hlen; cbn; lia].
Defined.

(** X9: in a binary source the loop reads [n] pixels, [n] being the
    product of width and height reduced modulo 2^32, and nothing else:
    pixels from [n] on keep what the fresh buffer held.  With a width or a
    height of 0, or a product that is a multiple of 2^32, no byte of pixel
    data is read and the load succeeds. *)
Theorem load_ppm_binary_untouched
  (w : world) (content : list ascii) (hdr : ppm_header_t) (img : img_t) :
  file w = Some content ->
  load_header (Some content) (stack_junk w) = Returns (Some hdr, []) ->
  type hdr = PPM_RAW ->
  alloc_img w (to_int (hwidth hdr)) (to_int (hheight hdr)) = Some img ->
  let n := Z.to_nat (to_uint (hwidth hdr * hheight hdr)) in
  exists pix,
    load_ppm w = Returns (Some (mkimg (width img) (height img) pix), [])
    /\ List.length pix = List.length (pix1d img)
    /\ (forall j, (n <= j)%nat -> nth j pix pixel0 = nth j (pix1d img) pixel0)
    /\ (n = 0%nat -> pix = pix1d img).
Proof.
  intros Hfile Hhdr Hty Halloc n.
  eexists. split; [|split; [|split]].
  - unfold load_ppm. rewrite Hfile, Hhdr. cbn [bind]. rewrite Halloc, Hty.
    reflexivity.
  - apply load_raw_length.
  - intros j Hj. apply load_raw_after. cbn. exact Hj.
  - fold n. intros ->. reflexivity.
Qed.

Lemma load_ppm_binary_untouched_witness :
  exists pix,
    load_ppm (world_of src_binary_0x5 [] (fun _ => pixel0))
    = Returns (Some (mkimg 0 5 pix), [])
    /\ pix = [].
Proof.
  destruct (load_ppm_binary_untouched
              (world_of src_binary_0x5 [] (fun _ => pixel0))
              src_binary_0x5 (mkheader PPM_RAW 0 5 255 11)
              (mkimg 0 5 []) eq_refl eq_refl eq_refl eq_refl)
    as (pix & Hload & _ & _ & Hzero).
  exists pix. split; [exact Hload | apply Hzero; reflexivity].
Defined.

(** ** write_ppm *)

(** X10: layout of a binary file.  [write_ppm] writes the header and then
    exactly three bytes per pixel, red, green, blue, for the pixels
    [0 .. n-1] of the flat buffer in order, [n] being [width * height]:
    pixel [k] is at bytes [3k], [3k+1], [3k+2] of the data, each component
    reduced to a byte. *)
Theorem write_ppm_binary_layout (img : img_t) :
  let n := Z.to_nat (to_int (width img * height img)) in
  exists data,
    write_ppm true img PPM_RAW
    = (true, Some (fprintf_header (str "P6") (width img) (height img) ++ data))
    /\ List.length data = (3 * n)%nat
    /\ forall k, (k < n)%nat ->
         map code (firstn 3 (skipn (3 * k) data))
         = [r (nth k (pix1d img) pixel0) mod 256;
            g (nth k (pix1d img) pixel0) mod 256;
            b (nth k (pix1d img) pixel0) mod 256].
Proof.
  intros n. exists (write_raw n 0 (pix1d img)).
  split; [reflexivity|]. split; [apply write_raw_length|].
  intros k Hk.
  assert (Hgen : forall m i, (k < m)%nat ->
            firstn 3 (skipn (3 * k) (write_raw m i (pix1d img)))
            = fwrite_pixel (nth (i + k) (pix1d img) pixel0)).
  { clear n Hk. induction k as [|k IH]; intros m i Hm.
    - destruct m as [|m]; [lia|]. rewrite Nat.add_0_r. reflexivity.
    - destruct m as [|m]; [lia|].
      replace (3 * S k)%nat with (S (S (S (3 * k)))) by lia.
      replace (i + S k)%nat with (S i + k)%nat by lia.
      cbn [write_raw fwrite_pixel app skipn]. apply IH. lia. }
  rewrite (Hgen n 0%nat Hk). cbn [Nat.add fwrite_pixel map].
  assert (Hc : forall z, code (chr z) = z mod 256).
  { intros z. unfold chr, code.
    pose proof (Z.mod_pos_bound z 256 eq_refl).
    rewrite N_ascii_embedding by lia. apply Z2N.id. lia. }
  now rewrite !Hc.
Qed.

Lemma digits_of_short (fuel : nat) :
  forall (d : nat) n acc, 0 <= n < 10 ^ Z.of_nat (S d) ->
    (List.length (digits_of fuel n acc) <= S d + List.length acc)%nat.
Proof.
  induction fuel as [|k IH]; intros d n acc Hn; [cbn; lia|].
  cbn [digits_of]. destruct (Z.eqb_spec (n / 10) 0) as [E|E].
  - cbn [List.length]. lia.
  - destruct d as [|d].
    + exfalso. apply E. apply Z.div_small. cbn in Hn. lia.
    + specialize (IH d (n / 10) (chr (48 + n mod 10) :: acc)).
      cbn [List.length] in IH.
      assert (0 <= n / 10 < 10 ^ Z.of_nat (S d)).
      { split; [apply Z.div_pos; lia|].
        apply Z.div_lt_upper_bound; [lia|].
        rewrite (Nat2Z.inj_succ (S d)), Z.pow_succ_r in Hn by lia. lia. }
      specialize (IH ltac:(assumption)). lia.
Qed.

Lemma fprintf_pixel_short (p : pixel_t) :
  byte_pixel p -> (List.length (fprintf_pixel p) <= 12)%nat.
Proof.
  intros (Hr & Hg & Hb). unfold fprintf_pixel.
  rewrite !fmt_d_nonneg by lia. unfold decimal.
  rewrite !length_app. cbn [List.length].
  pose proof (digits_of_short (S (Z.to_nat (Z.log2 (r p)))) 2 (r p) []
                ltac:(cbn; lia)).
  pose proof (digits_of_short (S (Z.to_nat (Z.log2 (g p)))) 2 (g p) []
                ltac:(cbn; lia)).
  pose proof (digits_of_short (S (Z.to_nat (Z.log2 (b p)))) 2 (b p) []
                ltac:(cbn; lia)).
  cbn [List.length] in *. lia.
Qed.

Lemma longest_line_app (a : list ascii) :
  count_nl a = 0%nat ->
  forall cur rest,
    longest_line cur (a ++ rest) = longest_line (cur + List.length a) rest.
Proof.
  induction a as [|c a IH]; intros Ha cur rest.
  - cbn. now rewrite Nat.add_0_r.
  - unfold count_nl in Ha. cbn [count_occ] in Ha.
    destruct (ascii_dec c NL) as [->|Hc]; [discriminate Ha|].
    cbn [app longest_line List.length].
    destruct (Ascii.eqb_spec c NL) as [E|_]; [contradiction|].
    rewrite IH by exact Ha. f_equal. lia.
Qed.

Lemma text_block_longest_line (pix : list pixel_t) :
  Forall byte_pixel pix ->
  forall k i cur,
    (cur <= 12 * (i mod 5))%nat ->
    (longest_line cur (text_block pix i k) <= 60)%nat.
Proof.
  intros Hpix. induction k as [|k IH]; intros i cur Hcur.
  - cbn. pose proof (Nat.mod_upper_bound i 5). lia.
  - rewrite text_block_step.
    assert (Hp : byte_pixel (nth i pix pixel0)).
    { destruct (Nat.lt_ge_cases i (List.length pix)) as [Hi|Hi].
      - rewrite Forall_forall in Hpix. now apply Hpix, nth_In.
      - rewrite nth_overflow by exact Hi.
        unfold byte_pixel, pixel0. cbn [r g b]. lia. }
    rewrite longest_line_app by apply count_nl_fprintf_pixel.
    pose proof (fprintf_pixel_short _ Hp) as Hlen.
    pose proof (Nat.mod_upper_bound i 5 ltac:(lia)) as Hi5.
    pose proof (Nat.div_mod_eq i 5) as Ei.
    pose proof (Nat.div_mod_eq (S i) 5) as Esi.
    pose proof (Nat.mod_upper_bound (S i) 5 ltac:(lia)) as Hsi5.
    replace (Z.of_nat (S i) mod 5) with (Z.of_nat (S i mod 5))
      by (rewrite Nat2Z.inj_mod; reflexivity).
    destruct (Z.eqb_spec (Z.of_nat (S i mod 5)) 0) as [E|E].
    + cbn [app longest_line]. rewrite Ascii.eqb_refl.
      specialize (IH (S i) 0%nat ltac:(lia)). lia.
    + cbn [app]. apply IH. lia.
Qed.

(** X11: the comment of [write_ppm] promises lines of at most 70
    characters in the text variant.  For pixels with components between 0
    and 255 no line of the pixel block is longer than 60 characters (five
    pixels of at most twelve characters each). *)
Theorem write_ppm_text_lines_short (img : img_t) :
  Forall byte_pixel (pix1d img) ->
  exists block,
    write_ppm true img PPM_ASCII
    = (true, Some (fprintf_header (str "P3") (width img) (height img) ++ block))
    /\ (longest_line 0 block <= 60)%nat.
Proof.
  intros Hpix. eexists. split; [apply write_ppm_ascii|].
  apply text_block_longest_line; [exact Hpix | lia].
Qed.

Lemma write_ppm_text_lines_short_witness :
  exists block,
    write_ppm true img_4x3 PPM_ASCII
    = (true, Some (fprintf_header (str "P3") 4 3 ++ block))
    /\ (longest_line 0 block <= 60)%nat.
Proof.
  apply (write_ppm_text_lines_short img_4x3).
  repeat constructor; cbn; lia.
Defined.

(** ** Store, then load *)

(** X12: the text variant is lossless.  For every image with positive
    dimensions, a buffer of [width * height] pixels (the product fitting
    an [int]) and components between 0 and 255, the file that [write_ppm]
    writes in the text variant is loaded by [load_ppm] as the same image,
    with nothing on [stderr], whatever the uninitialised memory holds. *)
Theorem store_load_text
  (img : img_t) (out junk : list ascii) (heap : nat -> pixel_t) :
  well_formed img ->
  write_ppm true img PPM_ASCII = (true, Some out) ->
  load_ppm (world_of out junk heap) = Returns (Some img, []).
Proof.
  intros Hwf Hout.
  destruct (text_round_trip img junk heap Hwf) as (out' & Hout' & Hload).
  rewrite Hout in Hout'. injection Hout' as <-. exact Hload.
Qed.

Lemma store_load_text_witness :
  load_ppm (world_of (fprintf_header (str "P3") 4 3
                        ++ text_block (pix1d img_4x3) 0 12) [] (fun _ => pixel0))
  = Returns (Some img_4x3, []).
Proof.
  apply (store_load_text img_4x3).
  - constructor; cbn; try lia; try reflexivity. repeat constructor; cbn; lia.
  - reflexivity.
Defined.



(** ** The row view and the example program *)

Lemma set_pix2d_same (img : img_t) (j i : nat) (p : pixel_t) :
  (Z.to_nat (width img) * j + i < List.length (pix1d img))%nat ->
  pix2d (set_pix2d img j i p) j i = p.
Proof.
  intros H. unfold pix2d, set_pix2d. cbn [width pix1d].
  now apply store_nth_same.
Qed.

Lemma set_pix2d_other (img : img_t) (j i j' i' : nat) (p : pixel_t) :
  (i < Z.to_nat (width img))%nat -> (i' < Z.to_nat (width img))%nat ->
  (j, i) <> (j', i') ->
  pix2d (set_pix2d img j i p) j' i' = pix2d img j' i'.
Proof.
  intros Hi Hi' Hne. unfold pix2d, set_pix2d. cbn [width pix1d].
  apply store_nth_other. intros E. apply Hne.
  assert (j = j') by nia. subst j'. f_equal. lia.
Qed.


(** X14: the row view is a two-dimensional array over the flat buffer.
    In an image with [width * height] pixels, the product fitting an
    [int], the offset [width * j] that [alloc_img] computes in [int] for a
    row [j < height] is exact, a pixel [(j, i)] with [i < width] lies
    inside the buffer, and after a write at [(j, i)] a read at the same
    place returns the pixel written while a read at any other place
    [(j', i')] of the image returns what was there before: rows do not
    overlap. *)
Theorem pix2d_write_then_read
  (img : img_t) (j i j' i' : nat) (p : pixel_t) :
  Z.of_nat (List.length (pix1d img)) = width img * height img ->
  width img * height img < 2 ^ 31 ->
  Z.of_nat j < height img -> Z.of_nat i < width img ->
  Z.of_nat j' < height img -> Z.of_nat i' < width img ->
  to_int (width img * Z.of_nat j) = Z.of_nat (Z.to_nat (width img) * j)
  /\ (Z.to_nat (width img) * j + i < List.length (pix1d img))%nat
  /\ pix2d (set_pix2d img j i p) j' i'
     = if (j =? j')%nat && (i =? i')%nat then p else pix2d img j' i'.
Proof.
  intros Hlen Hsize Hj Hi Hj' Hi'.
  assert (Hw : Z.of_nat (Z.to_nat (width img)) = width img)
    by (apply Z2Nat.id; lia).
  assert (Hin : (Z.to_nat (width img) * j + i < List.length (pix1d img))%nat).
  { apply Nat2Z.inj_lt. rewrite Nat2Z.inj_add, Nat2Z.inj_mul, Hw, Hlen. nia. }
  split; [|split; [exact Hin|]].
  - rewrite Nat2Z.inj_mul, Hw. apply to_int_small. nia.
  - destruct (Nat.eqb_spec j j') as [<-|Hne]; cbn [andb].
    + destruct (Nat.eqb_spec i i') as [<-|Hc].
      * now apply set_pix2d_same.
      * apply set_pix2d_other; try lia. congruence.
    + apply set_pix2d_other; try lia. congruence.
Qed.

Lemma pix2d_write_then_read_witness :
  to_int (width img_4x2 * Z.of_nat 1) = Z.of_nat (Z.to_nat (width img_4x2) * 1)
  /\ (Z.to_nat (width img_4x2) * 1 + 2 < List.length (pix1d img_4x2))%nat
  /\ pix2d (set_pix2d img_4x2 1 2 pixel0) 0 2 = pix2d img_4x2 0 2.
Proof.
  apply (pix2d_write_then_read img_4x2 1 2 0 2 pixel0); cbn; lia.
Defined.















(** A loaded image comes with nothing on [stderr]. *)
Lemma load_ppm_some_silent (w : world) (img : img_t) (err : list ascii) :
  load_ppm w = Returns (Some img, err) -> err = [].
Proof.
  unfold load_ppm.
  destruct (load_header_outcomes (file w) (stack_junk w))
    as [E|[[h E]|[E|[E|E]]]]; rewrite E; cbn [bind]; try discriminate.
  destruct (alloc_img w _ _); [|discriminate].
  destruct (file w); [|discriminate].
  destruct (type h).
  - intros H. now injection H.
  - destruct (load_ascii _ _ _ _ _); [|discriminate].
    intros H. now injection H.
Qed.

(** X16: what the exit status of the example program tells.  A run that
    ends exits with [EXIT_SUCCESS] exactly when the command line is
    accepted, [load_ppm] returns an image and the output can be opened
    for writing; such a run prints nothing on [stderr] and passes to the
    output what [write_ppm] stores for the darkened image.  Nothing else
    is checked: [write_ppm] does not look at the results of its writes, so
    the status does not tell that the bytes reached the file.  Every other
    run that ends exits with [EXIT_FAILURE] without having opened a file
    for writing, and [stderr] holds the usage text, or what [load_ppm]
    printed followed by the line about the input, or the line about the
    output. *)
Theorem main_exit_status
  (sys : system) (argv : list (list ascii)) (res : run) :
  main sys argv = Returns res ->
  let load input :=
    load_ppm (mkworld (fs sys input) (sys_stack sys) (sys_malloc sys)
                (sys_heap sys)) in
  (status res = EXIT_SUCCESS /\ stderr res = []
   /\ exists ty input output img bytes,
        parse_args argv = Some (ty, input, output)
        /\ load input = Returns (Some img, [])
        /\ can_write sys output = true
        /\ write_ppm true (darken img) ty = (true, Some bytes)
        /\ written res = Some (output, bytes))
  \/ (status res = EXIT_FAILURE /\ written res = None
      /\ ((parse_args argv = None /\ stderr res = usage sys argv)
          \/ exists ty input output,
               parse_args argv = Some (ty, input, output)
               /\ ((exists err,
                      load input = Returns (None, err)
                      /\ stderr res = err ++ failed (str "loading") input)
                   \/ (exists img,
                         load input = Returns (Some img, [])
                         /\ can_write sys output = false
                         /\ stderr res = failed (str "writing") output)))).
Proof.
  intros Hrun load. unfold main in Hrun.
  destruct (parse_args argv) as [[[ty input] output]|] eqn:Eargs.
  2:{ injection Hrun as <-. right. cbn [status written stderr]. auto. }
  fold (load input) in Hrun.
  destruct (load input) as [|[[img|] err]] eqn:Eload; cbn [bind] in Hrun;
    [discriminate| |].
  2:{ injection Hrun as <-. right. cbn [status written stderr].
      split; [reflexivity|]. split; [reflexivity|]. right.
      exists ty, input, output. split; [reflexivity|]. left. now exists err. }
  pose proof (load_ppm_some_silent _ _ _ Eload) as ->.
  unfold write_ppm in Hrun.
  destruct (can_write sys output) eqn:Ew; cbn [negb] in Hrun.
  - destruct ty; injection Hrun as <-; left;
      cbn [status written stderr option_map];
      (split; [reflexivity|]); (split; [reflexivity|]);
      eexists _, input, output, img, _; repeat split; eauto.
  - injection Hrun as <-. right. cbn [status written stderr].
    split; [reflexivity|]. split; [reflexivity|]. right.
    exists ty, input, output. split; [reflexivity|]. right. now exists img.
Qed.

Lemma main_exit_status_witness :
  status (mkrun EXIT_FAILURE (failed (str "loading") (str "in.ppm")) None)
  = EXIT_FAILURE
  /\ stderr (mkrun EXIT_FAILURE (failed (str "loading") (str "in.ppm")) None)
     = failed (str "loading") (str "in.ppm").
Proof.
  destruct (main_exit_status (system_of (str "other.ppm") [])
              [str "ppm"; str "in.ppm"; str "out.ppm"]
              (mkrun EXIT_FAILURE (failed (str "loading") (str "in.ppm")) None)
              eq_refl) as [(Hs & _)|(Hs & _ & _)].
  - discriminate Hs.
  - split; [exact Hs | reflexivity].
Defined.



